(** * Trotter time-evolution circuit factories and the Hadamard-test wrapper

    A shallow embedding of
    [quri_algo/circuit/time_evolution/trotter_time_evo.py] and
    [quri_algo/circuit/hadamard_test.py].

    Conventions of the embedding.
    - A Python [float] has two readings.  In the templates and the circuit
      factories a coefficient, an angle or a time is an exact rational
      ([Q]): the rounding of a gate angle is not modelled, and the theorems
      stated there are about which gates are emitted, in which order.  The
      step computation of the fixed-interval policy decides by dividing,
      rounding and comparing floats; module [Binary64] writes it out on
      binary64 floats ([PrimFloat]) with numpy's algorithms, and the
      statements about which multiples of the time step are accepted, and
      with which repetition count, are made there.  What is stated of the
      fixed-interval factories on the exact reading (a negated evolution
      time, a call at the time step itself, a time step that is not
      positive) is stated in [Binary64] as well.
    - A Python [int] is a [Z]; a qubit index or a qubit count is a [nat].
    - A raised exception is the left summand of [Exn + A].
    - The operator and circuit classes of quri_parts are modelled by the data
      they hold: a Pauli label is a finite set of (qubit, Pauli) pairs, an
      operator is its insertion-ordered list of items, a circuit is a qubit
      count with a gate list.  The circuit builder's own validation of gate
      indices is not modelled.
    - [trotter_suzuki_decomposition] (quri_parts), and
      [get_local_hamiltonian_input] and the [__eq__] that the partial factory
      inherits (the interface module), are parameters; each may raise. *)

From Stdlib Require Import ZArith QArith Qround Qabs Lqa Lia String List.
From Stdlib Require Import PrimFloat FloatOps SpecFloat FloatAxioms.
From Stdlib Require Uint63.
From stdpp Require Import gmap.
Import ListNotations.

Local Open Scope Z_scope.
Local Open Scope Q_scope.

(** ** Exceptions *)

Inductive Exn : Type :=
| AssertionError (msg : string)
| ValueError (msg : string)
| AttributeError (msg : string)
| OverflowError (msg : string)
| LibraryError (msg : string).

Definition Result (A : Type) : Type := (Exn + A)%type.

Definition raise {A} (e : Exn) : Result A := inl e.

#[export] Instance Result_ret : MRet Result := fun A a => inr a.
#[export] Instance Result_bind : MBind Result := fun A B k m =>
  match m with
  | inl e => inl e
  | inr a => k a
  end.

(** ** numpy on rationals

    The exact reading of the step computation: what the code computes when
    no operation rounds.  It is the reading of the circuit factories below;
    [Binary64] has the computation as binary64 performs it. *)

Module np.

(** [np.abs]. *)
Definition abs (x : Q) : Q := Qabs x.

(** [np.sign]: -1, 0 or 1. *)
Definition sign (x : Q) : Q := inject_Z (Z.sgn (Qnum x)).

(** [np.rint]: the nearest integer, ties to the even one. *)
Definition rint (x : Q) : Z :=
  let f := Qfloor x in
  match Qcompare (x - inject_Z f) (1 # 2) with
  | Lt => f
  | Gt => (f + 1)%Z
  | Eq => if Z.even f then f else (f + 1)%Z
  end.

(** [np.round(x, decimals)] is [rint(x * 10^decimals) / 10^decimals]. *)
Definition round (x : Q) (decimals : Z) : Q :=
  let scale := inject_Z (10 ^ decimals) in
  inject_Z (rint (x * scale)) / scale.

Definition rtol : Q := 1 # 100000.
Definition atol : Q := 1 # 100000000.

(** [np.isclose(a, b)] with its default tolerances:
    [|a - b| <= atol + rtol * |b|]. *)
Definition isclose (a b : Q) : bool :=
  Qle_bool (Qabs (a - b)) (atol + rtol * Qabs b).

End np.

(** [a > b] on floats. *)
Definition Qgtb (a b : Q) : bool := negb (Qle_bool a b).

(** Python's [int(x)] on a float: truncation towards zero. *)
Definition int (x : Q) : Z := Z.quot (Qnum x) (Z.pos (Qden x)).

(** The rational that a finite binary64 float stands for. *)
Definition float_value (x : float) : option Q :=
  match Prim2SF x with
  | S754_zero _ => Some 0
  | S754_finite s m e =>
      let magnitude := inject_Z (Z.pos m) * Qpower 2 e in
      Some (if s then - magnitude else magnitude)
  | S754_infinity _ | S754_nan => None
  end.

(** The rational of a finite double (0 for the others). *)
Definition double (x : float) : Q := default 0 (float_value x).

(** ** Fixed-interval step computation *)

Definition msg_time_step : string := "time step must be greater than 0.".
Definition msg_not_multiple : string :=
  "Evolution time is not an integer muliple of time step.".

(** [get_evolution_trotter_step(time_step, evolution_time)], in exact
    arithmetic. *)
Definition get_evolution_trotter_step (time_step evolution_time : Q)
  : Result (Z * Z) :=
  if negb (Qgtb time_step 0) then raise (AssertionError msg_time_step)
  else
    let step := np.abs evolution_time / time_step in
    if negb (np.isclose (np.round step 12) (inject_Z (int step)))
    then raise (ValueError msg_not_multiple)
    else mret (int (np.round step 12), int (np.sign evolution_time)).


(** ** Pauli labels and operators (quri_parts.core.operator) *)

Module SinglePauli.
Inductive t : Type := X | Y | Z.
End SinglePauli.

#[export] Instance SinglePauli_eq_dec : EqDecision SinglePauli.t.
Proof. solve_decision. Defined.

#[export] Instance SinglePauli_countable : Countable SinglePauli.t.
Proof.
  refine (inj_countable'
    (fun p => match p with
              | SinglePauli.X => 1%nat
              | SinglePauli.Y => 2%nat
              | SinglePauli.Z => 3%nat
              end)
    (fun n => match n with
              | 1%nat => SinglePauli.X
              | 2%nat => SinglePauli.Y
              | _ => SinglePauli.Z
              end) _).
  by intros [].
Defined.

(** A [PauliLabel] is a frozenset of (qubit index, Pauli id) pairs. *)
Abbreviation PauliLabel := (gset (nat * SinglePauli.t)).

Definition PAULI_IDENTITY : PauliLabel := ∅.

(** [pauli_label(iterable of pairs)]. *)
Definition pauli_label (p : list (nat * SinglePauli.t)) : PauliLabel :=
  list_to_set p.

(** [op.index_and_pauli_id_list]: the qubit indices and the Pauli ids of a
    label, in the corresponding order. *)
Definition index_and_pauli_id_list (op : PauliLabel)
  : list nat * list SinglePauli.t :=
  ((elements op).*1, (elements op).*2).

(** [str(op)] for a label other than the identity, kept as the list of its
    tokens: the text [X1 Y2] is [[(1, X); (2, Y)]].  Appending the text [ Z0]
    appends the token [(0, Z)], and [pauli_label] reads the tokens back. *)
Definition str (op : PauliLabel) : list (nat * SinglePauli.t) := elements op.

Record complex : Type := Complex { real : Q; imag : Q }.

(** [c == 0] and [a + b] on complex numbers. *)
Definition complex_is_zero (c : complex) : bool :=
  Qeq_bool (real c) 0 && Qeq_bool (imag c) 0.
Definition complex_add (a b : complex) : complex :=
  Complex (real a + real b) (imag a + imag b).

(** An [Operator] is a dict from Pauli labels to coefficients; it is kept as
    the list of its items in insertion order. *)
Abbreviation Operator := (list (PauliLabel * complex)).

(** [self.get(key, default)], [self[key] = value] and [del self[key]]. *)
Fixpoint dict_get (self : Operator) (key : PauliLabel) (default : complex)
  : complex :=
  match self with
  | [] => default
  | (k, v) :: rest => if decide (k = key) then v else dict_get rest key default
  end.

Fixpoint dict_set (self : Operator) (key : PauliLabel) (value : complex)
  : Operator :=
  match self with
  | [] => [(key, value)]
  | (k, v) :: rest =>
      if decide (k = key) then (k, value) :: rest
      else (k, v) :: dict_set rest key value
  end.

Definition dict_del (self : Operator) (key : PauliLabel) : Operator :=
  filter (fun kv => kv.1 <> key) self.

(** [Operator.add_term]: terms that are or become zero are not stored. *)
Definition add_term (self : Operator) (label : PauliLabel) (coef : complex)
  : Operator :=
  if complex_is_zero coef then self
  else
    let value := complex_add (dict_get self label (Complex 0 0)) coef in
    let self' := dict_set self label value in
    if complex_is_zero value then dict_del self' label else self'.

(** [get_shifted_hamiltonian(hamiltonian, shift)]. *)
Definition get_shifted_hamiltonian (hamiltonian : Operator) (shift : nat)
  : Operator :=
  fold_left
    (fun hamiltonian_shifted '(op, coef) =>
       if decide (op = PAULI_IDENTITY)
       then add_term hamiltonian_shifted PAULI_IDENTITY coef
       else
         let '(indices, ids) := index_and_pauli_id_list op in
         let idx_id_iterable :=
           map (fun '(idx, id) => ((idx + shift)%nat, id)) (zip indices ids) in
         add_term hamiltonian_shifted (pauli_label idx_id_iterable) coef)
    hamiltonian [].

(** [trotter_suzuki_decomposition(op, param, order_2k)] is a routine of
    quri_parts; it is a parameter of the development. *)
Class SuzukiRoutine : Type :=
  trotter_suzuki_decomposition :
    Operator -> Q -> Z -> Result (list (PauliLabel * complex)).

(** ** Circuits (quri_parts.circuit) *)

(** A parametric gate of a circuit with the single parameter [t]: its angle
    is the linear function [{t: angle_coef}], kept as the coefficient. *)
Inductive ParametricGate : Type :=
| ParametricRZ (target_index : nat) (angle_coef : Q)
| ParametricPauliRotation
    (target_indices : list nat) (pauli_ids : list SinglePauli.t)
    (angle_coef : Q).

Record LinearMappedUnboundParametricQuantumCircuit : Type :=
  ParametricCircuit {
    param_qubit_count : nat;
    param_gates : list ParametricGate }.

Definition add_ParametricRZ_gate
  (circuit : LinearMappedUnboundParametricQuantumCircuit)
  (index : nat) (angle_coef : Q) : LinearMappedUnboundParametricQuantumCircuit :=
  ParametricCircuit (param_qubit_count circuit)
    (param_gates circuit ++ [ParametricRZ index angle_coef]).

Definition add_ParametricPauliRotation_gate
  (circuit : LinearMappedUnboundParametricQuantumCircuit)
  (target_indices : list nat) (pauli_ids : list SinglePauli.t)
  (angle_coef : Q) : LinearMappedUnboundParametricQuantumCircuit :=
  ParametricCircuit (param_qubit_count circuit)
    (param_gates circuit
       ++ [ParametricPauliRotation target_indices pauli_ids angle_coef]).

Module Gate.
Inductive t : Type :=
| H (target_index : nat)
| S (target_index : nat)
| Sdag (target_index : nat)
| RZ (target_index : nat) (angle : Q)
| PauliRotation
    (target_indices : list nat) (pauli_ids : list SinglePauli.t) (angle : Q).
End Gate.

Record QuantumCircuit : Type :=
  Circuit { qubit_count : nat; gates : list Gate.t }.

Definition add_H_gate (circuit : QuantumCircuit) (index : nat)
  : QuantumCircuit :=
  Circuit (qubit_count circuit) (gates circuit ++ [Gate.H index]).

Definition add_Sdag_gate (circuit : QuantumCircuit) (index : nat)
  : QuantumCircuit :=
  Circuit (qubit_count circuit) (gates circuit ++ [Gate.Sdag index]).

(** [circuit.extend(other)] and [circuit += other]. *)
Definition extend (circuit other : QuantumCircuit) : QuantumCircuit :=
  Circuit (qubit_count circuit) (gates circuit ++ gates other).

(** [template.bind_parameters([value])]. *)
Definition bind_gate (value : Q) (g : ParametricGate) : Gate.t :=
  match g with
  | ParametricRZ i c => Gate.RZ i (c * value)
  | ParametricPauliRotation targets paulis c =>
      Gate.PauliRotation targets paulis (c * value)
  end.

Definition bind_parameters
  (template : LinearMappedUnboundParametricQuantumCircuit) (value : Q)
  : QuantumCircuit :=
  Circuit (param_qubit_count template)
    (map (bind_gate value) (param_gates template)).

(** [inverse_circuit]: the inverses of the gates, in reverse order. *)
Definition inverse_gate (g : Gate.t) : Gate.t :=
  match g with
  | Gate.H i => Gate.H i
  | Gate.S i => Gate.Sdag i
  | Gate.Sdag i => Gate.S i
  | Gate.RZ i angle => Gate.RZ i (- angle)
  | Gate.PauliRotation targets paulis angle =>
      Gate.PauliRotation targets paulis (- angle)
  end.

Definition inverse_circuit (circuit : QuantumCircuit) : QuantumCircuit :=
  Circuit (qubit_count circuit) (map inverse_gate (rev (gates circuit))).

(** ** Trotter templates *)

Definition msg_trotter_order : string :=
  "Trotter order must be 1 or an even number.".

Section Synthesis.
Context `{SuzukiRoutine}.

Definition _add_single_term_for_trotter_time_evolution
  (circuit : LinearMappedUnboundParametricQuantumCircuit)
  (op : PauliLabel) (coeff : complex) (n_trotter : Z)
  : LinearMappedUnboundParametricQuantumCircuit :=
  if decide (op = PAULI_IDENTITY) then circuit
  else
    let '(indices, ids) := index_and_pauli_id_list op in
    add_ParametricPauliRotation_gate circuit indices ids
      (2 * real coeff / inject_Z n_trotter).

Definition _get_trotter_pauli_coefficient_pairs
  (hamiltonian : Operator) (trotter_order : Z)
  : Result (list (PauliLabel * complex)) :=
  if (trotter_order =? 1)%Z then mret hamiltonian
  else if negb (trotter_order mod 2 =? 0)%Z
  then raise (AssertionError msg_trotter_order)
  else
    decomposition ← trotter_suzuki_decomposition hamiltonian 1
                      (trotter_order / 2)%Z;
    mret (map (fun '(op, coeff) => (op, coeff)) decomposition).

Definition get_trotter_time_evolution_operator
  (hamiltonian : Operator) (n_state_qubits : nat)
  (n_trotter : Z) (trotter_order : Z)
  : Result LinearMappedUnboundParametricQuantumCircuit :=
  let circuit := ParametricCircuit n_state_qubits [] in
  op_coeff_pair ← _get_trotter_pauli_coefficient_pairs
                    hamiltonian trotter_order;
  mret (Nat.iter (Z.to_nat n_trotter)
          (fun circuit =>
             fold_left
               (fun circuit '(op, coef) =>
                  _add_single_term_for_trotter_time_evolution
                    circuit op coef n_trotter)
               op_coeff_pair circuit)
          circuit).

Definition _add_single_term_for_controlled_time_evolution
  (circuit : LinearMappedUnboundParametricQuantumCircuit)
  (op : PauliLabel) (coeff : complex) (n_trotter : Z)
  : LinearMappedUnboundParametricQuantumCircuit :=
  if decide (op = PAULI_IDENTITY)
  then add_ParametricRZ_gate circuit 0 (- real coeff / inject_Z n_trotter)
  else
    let '(indices, ids) := index_and_pauli_id_list op in
    let circuit :=
      add_ParametricPauliRotation_gate circuit indices ids
        (real coeff / inject_Z n_trotter) in
    let extended_op := pauli_label (str op ++ [(0%nat, SinglePauli.Z)]) in
    let '(indices, ids) := index_and_pauli_id_list extended_op in
    add_ParametricPauliRotation_gate circuit indices ids
      (- real coeff / inject_Z n_trotter).

Definition get_trotter_controlled_time_evolution_operator
  (hamiltonian : Operator) (n_state_qubits : nat)
  (n_trotter : Z) (trotter_order : Z)
  : Result LinearMappedUnboundParametricQuantumCircuit :=
  let circuit := ParametricCircuit (n_state_qubits + 1) [] in
  let hamiltonian_shifted := get_shifted_hamiltonian hamiltonian 1 in
  op_coeff_pair ← _get_trotter_pauli_coefficient_pairs
                    hamiltonian_shifted trotter_order;
  mret (Nat.iter (Z.to_nat n_trotter)
          (fun circuit =>
             fold_left
               (fun circuit '(op, coef) =>
                  _add_single_term_for_controlled_time_evolution
                    circuit op coef n_trotter)
               op_coeff_pair circuit)
          circuit).

End Synthesis.

(** ** The interpreter state

    Two parts of the Python state matter to the factories: object identity
    (the cache of the partial factory holds references to factories and
    hands out template objects) and the class-level [lru_cache].
    [synthesized] is a ghost counter of the calls made to the two template
    synthesizers. *)

Record TemplateObject : Type :=
  { object_id : nat; template : LinearMappedUnboundParametricQuantumCircuit }.

(** A cache key is the argument tuple [(self, idx0, idx1)], with the object
    [self] named by its identity. *)
Abbreviation CacheKey := (nat * Z * Z)%type.

(** The cache is a dict: for every hash value the entries with that hash,
    in the order of their insertion, which is the order a lookup probes
    them in. *)
Record World : Type :=
  { synthesized : nat;
    next_id : nat;
    cache : gmap Z (list (CacheKey * TemplateObject)) }.

Definition initial_world : World :=
  {| synthesized := 0; next_id := 0; cache := ∅ |}.

Definition Py (A : Type) : Type := World -> Result A * World.

#[export] Instance Py_ret : MRet Py := fun A a w => (inr a, w).
#[export] Instance Py_bind : MBind Py := fun A B k m w =>
  match m w with
  | (inl e, w') => (inl e, w')
  | (inr a, w') => k a w'
  end.

(** [assert cond, msg]. *)
Definition assert (cond : bool) (msg : string) : Py () :=
  fun w => if cond then (inr (), w) else (inl (AssertionError msg), w).

(** A call to a synthesizer: the ghost counter is advanced. *)
Definition count_synthesis (w : World) : World :=
  {| synthesized := Datatypes.S (synthesized w);
     next_id := next_id w;
     cache := cache w |}.

Definition synthesize {A} (r : Result A) : Py A :=
  fun w => (r, count_synthesis w).

(** Allocation of a fresh object. *)
Definition new_object : Py nat :=
  fun w =>
    (inr (next_id w),
     {| synthesized := synthesized w;
        next_id := Datatypes.S (next_id w);
        cache := cache w |}).

Definition lift {A} (r : Result A) : Py A := fun w => (r, w).

(** ** Problem input (quri_algo.problem) *)

Record QubitHamiltonianInput : Type :=
  { n_state_qubit : nat; qubit_hamiltonian : Operator }.

(** [PartialTimeEvolutionCircuitFactory.get_local_hamiltonian_input], the
    restriction of the problem to a qubit subrange, is defined by the
    interface module; it is a parameter of the development, and it may
    raise. *)
Class LocalHamiltonian : Type :=
  get_local_hamiltonian_input :
    QubitHamiltonianInput -> Z -> Z -> Result QubitHamiltonianInput.

(** [a == b] for two different partial factories, named by their
    identities.  The class defines [__hash__] and inherits its [__eq__]
    from the interface module: what that method returns, or raises, is a
    parameter of the development. *)
Class InheritedEq : Type := inherited_eq : nat -> nat -> Result bool.

(** ** Factories

    Every factory is embedded for [transpiler=None]: the decorator
    [apply_transpiler] belongs to another module and only post-processes the
    circuit returned by [__call__]. *)

Definition msg_exclusive : string :=
  "One and only one of time_step and n_trotter is allowed to be specified.".

Module FixedStepTrotterTimeEvolutionCircuitFactory.
Record t : Type :=
  { n_trotter : Z;
    encoded_problem : QubitHamiltonianInput;
    qubit_count : nat;
    trotter_order : Z;
    _param_evo_circuit : LinearMappedUnboundParametricQuantumCircuit }.

Definition __init__ `{SuzukiRoutine}
  (encoded_problem : QubitHamiltonianInput) (n_trotter : Z)
  (trotter_order : Z) : Py t :=
  circuit ← synthesize
    (get_trotter_time_evolution_operator
       (qubit_hamiltonian encoded_problem) (n_state_qubit encoded_problem)
       n_trotter trotter_order);
  mret {| n_trotter := n_trotter;
          encoded_problem := encoded_problem;
          qubit_count := n_state_qubit encoded_problem;
          trotter_order := trotter_order;
          _param_evo_circuit := circuit |}.

Definition __call__ (self : t) (evolution_time : Q) : QuantumCircuit :=
  bind_parameters (_param_evo_circuit self) evolution_time.
End FixedStepTrotterTimeEvolutionCircuitFactory.

Module FixedStepTrotterControlledTimeEvolutionCircuitFactory.
Record t : Type :=
  { n_trotter : Z;
    encoded_problem : QubitHamiltonianInput;
    qubit_count : nat;
    trotter_order : Z;
    _param_evo_circuit : LinearMappedUnboundParametricQuantumCircuit }.

Definition __init__ `{SuzukiRoutine}
  (encoded_problem : QubitHamiltonianInput) (n_trotter : Z)
  (trotter_order : Z) : Py t :=
  circuit ← synthesize
    (get_trotter_controlled_time_evolution_operator
       (qubit_hamiltonian encoded_problem) (n_state_qubit encoded_problem)
       n_trotter trotter_order);
  mret {| n_trotter := n_trotter;
          encoded_problem := encoded_problem;
          qubit_count := n_state_qubit encoded_problem;
          trotter_order := trotter_order;
          _param_evo_circuit := circuit |}.

Definition __call__ (self : t) (evolution_time : Q) : QuantumCircuit :=
  bind_parameters (_param_evo_circuit self) evolution_time.
End FixedStepTrotterControlledTimeEvolutionCircuitFactory.

Module FixedIntervalTrotterTimeEvolutionCircuitFactory.
Record t : Type :=
  { encoded_problem : QubitHamiltonianInput;
    qubit_count : nat;
    time_step : Q;
    trotter_order : Z;
    _single_time_step_circuit : QuantumCircuit }.

Definition __init__ `{SuzukiRoutine}
  (encoded_problem : QubitHamiltonianInput) (time_step : Q)
  (trotter_order : Z) : Py t :=
  circuit ← synthesize
    (get_trotter_time_evolution_operator
       (qubit_hamiltonian encoded_problem) (n_state_qubit encoded_problem)
       1 trotter_order);
  mret {| encoded_problem := encoded_problem;
          qubit_count := n_state_qubit encoded_problem;
          time_step := time_step;
          trotter_order := trotter_order;
          _single_time_step_circuit := bind_parameters circuit time_step |}.

Definition __call__ (self : t) (evolution_time : Q) : Result QuantumCircuit :=
  '(n_repition, sgn) ← get_evolution_trotter_step
                         (time_step self) evolution_time;
  let circuit :=
    Nat.iter (Z.to_nat n_repition)
      (fun circuit => extend circuit (_single_time_step_circuit self))
      (Circuit (qubit_count self) []) in
  mret (if (sgn >? 0)%Z then circuit else inverse_circuit circuit).
End FixedIntervalTrotterTimeEvolutionCircuitFactory.

Module FixedIntervalTrotterControlledTimeEvolutionCircuitFactory.
Record t : Type :=
  { encoded_problem : QubitHamiltonianInput;
    qubit_count : nat;
    time_step : Q;
    trotter_order : Z;
    _single_time_step_circuit : QuantumCircuit }.

Definition __init__ `{SuzukiRoutine}
  (encoded_problem : QubitHamiltonianInput) (time_step : Q)
  (trotter_order : Z) : Py t :=
  circuit ← synthesize
    (get_trotter_controlled_time_evolution_operator
       (qubit_hamiltonian encoded_problem) (n_state_qubit encoded_problem)
       1 trotter_order);
  mret {| encoded_problem := encoded_problem;
          qubit_count := n_state_qubit encoded_problem;
          time_step := time_step;
          trotter_order := trotter_order;
          _single_time_step_circuit := bind_parameters circuit time_step |}.

Definition __call__ (self : t) (evolution_time : Q) : Result QuantumCircuit :=
  '(n_repition, sgn) ← get_evolution_trotter_step
                         (time_step self) evolution_time;
  let circuit :=
    Nat.iter (Z.to_nat n_repition)
      (fun circuit => extend circuit (_single_time_step_circuit self))
      (Circuit (qubit_count self + 1) []) in
  mret (if (sgn >? 0)%Z then circuit else inverse_circuit circuit).
End FixedIntervalTrotterControlledTimeEvolutionCircuitFactory.

Module TrotterTimeEvolutionCircuitFactory.
Inductive factory : Type :=
| FixedInterval (f : FixedIntervalTrotterTimeEvolutionCircuitFactory.t)
| FixedStep (f : FixedStepTrotterTimeEvolutionCircuitFactory.t).

Record t : Type :=
  { encoded_problem : QubitHamiltonianInput;
    qubit_count : nat;
    time_step : option Q;
    n_trotter : option Z;
    trotter_order : Z;
    _factory : option factory }.

Definition __init__ `{SuzukiRoutine}
  (encoded_problem : QubitHamiltonianInput)
  (time_step : option Q) (n_trotter : option Z) (trotter_order : Z) : Py t :=
  _ ← assert (xorb (bool_decide (time_step <> None))
                   (bool_decide (n_trotter <> None))) msg_exclusive;
  _factory ←
    match time_step, n_trotter with
    | Some time_step, _ =>
        f ← FixedIntervalTrotterTimeEvolutionCircuitFactory.__init__
              encoded_problem time_step trotter_order;
        mret (Some (FixedInterval f))
    | None, Some n_trotter =>
        f ← FixedStepTrotterTimeEvolutionCircuitFactory.__init__
              encoded_problem n_trotter trotter_order;
        mret (Some (FixedStep f))
    | None, None => mret None
    end;
  mret {| encoded_problem := encoded_problem;
          qubit_count := n_state_qubit encoded_problem;
          time_step := time_step;
          n_trotter := n_trotter;
          trotter_order := trotter_order;
          _factory := _factory |}.

Definition __call__ (self : t) (evolution_time : Q) : Result QuantumCircuit :=
  match _factory self with
  | Some (FixedInterval f) =>
      FixedIntervalTrotterTimeEvolutionCircuitFactory.__call__
        f evolution_time
  | Some (FixedStep f) =>
      mret (FixedStepTrotterTimeEvolutionCircuitFactory.__call__
              f evolution_time)
  | None => raise (AttributeError "_factory")
  end.
End TrotterTimeEvolutionCircuitFactory.

Module TrotterControlledTimeEvolutionCircuitFactory.
Inductive factory : Type :=
| FixedInterval
    (f : FixedIntervalTrotterControlledTimeEvolutionCircuitFactory.t)
| FixedStep (f : FixedStepTrotterControlledTimeEvolutionCircuitFactory.t).

Record t : Type :=
  { encoded_problem : QubitHamiltonianInput;
    qubit_count : nat;
    time_step : option Q;
    n_trotter : option Z;
    trotter_order : Z;
    _factory : option factory }.

Definition __init__ `{SuzukiRoutine}
  (encoded_problem : QubitHamiltonianInput)
  (time_step : option Q) (n_trotter : option Z) (trotter_order : Z) : Py t :=
  _ ← assert (xorb (bool_decide (time_step <> None))
                   (bool_decide (n_trotter <> None))) msg_exclusive;
  _factory ←
    match time_step, n_trotter with
    | Some time_step, _ =>
        f ← FixedIntervalTrotterControlledTimeEvolutionCircuitFactory.__init__
              encoded_problem time_step trotter_order;
        mret (Some (FixedInterval f))
    | None, Some n_trotter =>
        f ← FixedStepTrotterControlledTimeEvolutionCircuitFactory.__init__
              encoded_problem n_trotter trotter_order;
        mret (Some (FixedStep f))
    | None, None => mret None
    end;
  mret {| encoded_problem := encoded_problem;
          qubit_count := n_state_qubit encoded_problem;
          time_step := time_step;
          n_trotter := n_trotter;
          trotter_order := trotter_order;
          _factory := _factory |}.

Definition __call__ (self : t) (evolution_time : Q) : Result QuantumCircuit :=
  match _factory self with
  | Some (FixedInterval f) =>
      FixedIntervalTrotterControlledTimeEvolutionCircuitFactory.__call__
        f evolution_time
  | Some (FixedStep f) =>
      mret (FixedStepTrotterControlledTimeEvolutionCircuitFactory.__call__
              f evolution_time)
  | None => raise (AttributeError "_factory")
  end.
End TrotterControlledTimeEvolutionCircuitFactory.

(** ** The fixed-interval policy in binary64

    [get_evolution_trotter_step] and the two fixed-interval [__call__]
    methods, with the time step and the evolution time as binary64 floats
    and every float operation as IEEE 754 performs it (round to nearest,
    ties to even).  numpy's functions are written out by their algorithms. *)

Module Binary64.

Definition msg_int_nan : string := "cannot convert float NaN to integer".
Definition msg_int_infinity : string :=
  "cannot convert float infinity to integer".

(** Python's [int(x)] on a float: truncation towards zero; NaN and the
    infinities raise. *)
Definition int (x : float) : Result Z :=
  match Prim2SF x with
  | S754_zero _ => mret 0%Z
  | S754_finite s m e =>
      let magnitude := Z.shiftl (Z.pos m) e in
      mret (if s then (- magnitude)%Z else magnitude)
  | S754_infinity _ => raise (OverflowError msg_int_infinity)
  | S754_nan => raise (ValueError msg_int_nan)
  end.

(** Python's [float(n)] on an int: the nearest float. *)
Definition float_of_int (n : Z) : float :=
  SF2Prim (binary_normalize prec emax n 0 false).

Module np.

(** [np.abs]. *)
Definition abs (x : float) : float := PrimFloat.abs x.

(** [np.sign]: 1, -1 or 0, and NaN for NaN. *)
Definition sign (x : float) : float :=
  (if 0 <? x then 1 else if x <? 0 then -1 else if x =? 0 then 0 else x)%float.

(** The integer nearest to [m / 2^k], ties to the even one. *)
Definition nearest_even (m k : Z) : Z :=
  let q := Z.shiftr m k in
  let r := (m - Z.shiftl q k)%Z in
  match (2 * r ?= Z.shiftl 1 k)%Z with
  | Lt => q
  | Gt => (q + 1)%Z
  | Eq => if Z.even q then q else (q + 1)%Z
  end.

(** [np.rint]: the nearest integer, ties to the even one, with the sign of
    the argument.  A float with a nonnegative exponent is an integer. *)
Definition rint (x : float) : float :=
  match Prim2SF x with
  | S754_finite s m e =>
      if (0 <=? e)%Z then x
      else
        let r := of_uint63 (Uint63.of_Z (nearest_even (Z.pos m) (- e))) in
        if s then (- r)%float else r
  | _ => x
  end.

(** [np.round(x, decimals)] multiplies by [10 ** decimals], rounds to the
    nearest integer and divides again. *)
Definition round (x : float) (decimals : Z) : float :=
  let scale := float_of_int (10 ^ decimals) in
  (rint (x * scale) / scale)%float.

(** The doubles [1e-05] and [1e-08]. *)
Definition rtol : float := 0x1.4f8b588e368f1p-17%float.
Definition atol : float := 0x1.5798ee2308c3ap-27%float.

Definition isfinite (x : float) : bool := (PrimFloat.abs x <? infinity)%float.

(** [np.isclose(a, b)] with its default tolerances:
    [(|a - b| <= atol + rtol * |b|) & isfinite(b) | (a == b)]. *)
Definition isclose (a b : float) : bool :=
  ((PrimFloat.abs (a - b) <=? atol + rtol * PrimFloat.abs b)%float
   && isfinite b)
  || (a =? b)%float.

End np.

(** [get_evolution_trotter_step(time_step, evolution_time)]. *)
Definition get_evolution_trotter_step (time_step evolution_time : float)
  : Result (Z * Z) :=
  if negb (0 <? time_step)%float then raise (AssertionError msg_time_step)
  else
    let step := (np.abs evolution_time / time_step)%float in
    let rounded := np.round step 12 in
    truncated ← int step;
    if negb (np.isclose rounded (float_of_int truncated))
    then raise (ValueError msg_not_multiple)
    else
      n_repition ← int (np.round step 12);
      sgn ← int (np.sign evolution_time);
      mret (n_repition, sgn).

Module FixedIntervalTrotterTimeEvolutionCircuitFactory.
Record t : Type :=
  { encoded_problem : QubitHamiltonianInput;
    qubit_count : nat;
    time_step : float;
    trotter_order : Z;
    _single_time_step_circuit : QuantumCircuit }.

Definition __call__ (self : t) (evolution_time : float)
  : Result QuantumCircuit :=
  '(n_repition, sgn) ← get_evolution_trotter_step
                         (time_step self) evolution_time;
  let circuit :=
    Nat.iter (Z.to_nat n_repition)
      (fun circuit => extend circuit (_single_time_step_circuit self))
      (Circuit (qubit_count self) []) in
  mret (if (sgn >? 0)%Z then circuit else inverse_circuit circuit).
End FixedIntervalTrotterTimeEvolutionCircuitFactory.

Module FixedIntervalTrotterControlledTimeEvolutionCircuitFactory.
Record t : Type :=
  { encoded_problem : QubitHamiltonianInput;
    qubit_count : nat;
    time_step : float;
    trotter_order : Z;
    _single_time_step_circuit : QuantumCircuit }.

Definition __call__ (self : t) (evolution_time : float)
  : Result QuantumCircuit :=
  '(n_repition, sgn) ← get_evolution_trotter_step
                         (time_step self) evolution_time;
  let circuit :=
    Nat.iter (Z.to_nat n_repition)
      (fun circuit => extend circuit (_single_time_step_circuit self))
      (Circuit (qubit_count self + 1) []) in
  mret (if (sgn >? 0)%Z then circuit else inverse_circuit circuit).
End FixedIntervalTrotterControlledTimeEvolutionCircuitFactory.

End Binary64.

(** ** The partial factory *)

Module TrotterPartialTimeEvolutionCircuitFactory.
Record t : Type :=
  { self_id : nat;
    encoded_problem : QubitHamiltonianInput;
    n_trotter : Z }.

Definition __init__
  (encoded_problem : QubitHamiltonianInput) (n_trotter : Z) : Py t :=
  id ← new_object;
  mret {| self_id := id;
          encoded_problem := encoded_problem;
          n_trotter := n_trotter |}.

Definition __hash__ (self : t) : Z := n_trotter self.

Section Lookup.
Context `{InheritedEq}.

(** [stored == key] on two argument tuples: the members are compared in
    their order, an object with itself by identity and with another object
    by [__eq__]. *)
Definition key_eq (stored key : CacheKey) : Result bool :=
  let '(stored_self, stored_idx0, stored_idx1) := stored in
  let '(self, idx0, idx1) := key in
  same ← (if decide (stored_self = self) then mret true
          else inherited_eq stored_self self);
  mret (same && (stored_idx0 =? idx0)%Z && (stored_idx1 =? idx1)%Z).

(** Search of the entries with the hash of the key, oldest first, for one
    with an equal key; a comparison that raises ends the search. *)
Fixpoint bucket_find
  (bucket : list (CacheKey * TemplateObject)) (key : CacheKey)
  : Result (option TemplateObject) :=
  match bucket with
  | [] => mret None
  | (stored, value) :: rest =>
      matches ← key_eq stored key;
      if (matches : bool) then mret (Some value) else bucket_find rest key
  end.

Definition cache_get (w : World) (h : Z) (key : CacheKey)
  : Result (option TemplateObject) :=
  bucket_find (default [] (cache w !! h)) key.

End Lookup.

Definition cache_put (h : Z) (key : CacheKey) (value : TemplateObject)
  : Py () :=
  fun w =>
    (inr (),
     {| synthesized := synthesized w;
        next_id := next_id w;
        cache := <[h := default [] (cache w !! h) ++ [(key, value)]]> (cache w) |}).

Section Cached.
Context `{SuzukiRoutine} `{LocalHamiltonian} `{InheritedEq}.
(** The hash of the argument tuple [(self, idx0, idx1)], computed from the
    hashes of its members. *)
Context (tuple_hash : list Z -> Z).

(** [get_partial_time_evolution_circuit] under [lru_cache(maxsize=None)]. *)
Definition get_partial_time_evolution_circuit
  (self : t) (idx0 idx1 : Z) : Py TemplateObject :=
  fun w =>
    let key := (self_id self, idx0, idx1) in
    let h := tuple_hash [__hash__ self; idx0; idx1] in
    match cache_get w h key with
    | inl e => (inl e, w)
    | inr (Some result) => (inr result, w)
    | inr None =>
        (local_hamiltonian_input ←
           lift (get_local_hamiltonian_input (encoded_problem self) idx0 idx1);
         circuit ← synthesize
           (get_trotter_time_evolution_operator
              (qubit_hamiltonian local_hamiltonian_input)
              (n_state_qubit local_hamiltonian_input)
              (n_trotter self) 1);
         id ← new_object;
         let result := {| object_id := id; template := circuit |} in
         _ ← cache_put h key result;
         mret result) w
    end.

Definition __call__ (self : t) (idx0 idx1 : Z) (evolution_time : Q)
  : Py QuantumCircuit :=
  result ← get_partial_time_evolution_circuit self idx0 idx1;
  mret (bind_parameters (template result) evolution_time).

End Cached.
End TrotterPartialTimeEvolutionCircuitFactory.

(** ** Hadamard test *)

Definition construct_hadamard_circuit
  (time_evolution_circuit : QuantumCircuit) (test_real : bool)
  (preprocess_circuit postprocess_circuit : option QuantumCircuit)
  : QuantumCircuit :=
  let circuit := Circuit (qubit_count time_evolution_circuit) [] in
  let circuit := add_H_gate circuit 0 in
  let circuit :=
    match preprocess_circuit with
    | Some preprocess_circuit => extend circuit preprocess_circuit
    | None => circuit
    end in
  let circuit := extend circuit time_evolution_circuit in
  let circuit :=
    match postprocess_circuit with
    | Some postprocess_circuit => extend circuit postprocess_circuit
    | None => circuit
    end in
  let circuit := if negb test_real then add_Sdag_gate circuit 0 else circuit in
  add_H_gate circuit 0.

Module HadamardTestCircuitFactory.
Record t (Args : Type) : Type :=
  { test_real : bool;
    controlled_circuit_factory : Args -> Result QuantumCircuit }.
Arguments test_real {Args} _.
Arguments controlled_circuit_factory {Args} _ _.

Definition __call__ {Args} (self : t Args) (args : Args)
  : Result QuantumCircuit :=
  circuit ← controlled_circuit_factory self args;
  mret (construct_hadamard_circuit circuit (test_real self) None None).
End HadamardTestCircuitFactory.

(** ** Sample data for the examples *)

(** The message of the [ValueError] that [trotter_suzuki_decomposition]
    raises on a depth it does not support. *)
Definition msg_invalid_order : string := "Invalid order.".

(** A routine with the interface of [trotter_suzuki_decomposition], for the
    examples: it rejects a depth below 1 as the library routine does, and
    returns the symmetric splitting of the terms (half of the step forwards
    and half backwards, the formula of depth 1) at every other depth. *)
Definition symmetric_splitting : SuzukiRoutine :=
  fun op param order_2k =>
    if (order_2k <? 1)%Z then raise (ValueError msg_invalid_order)
    else
      let half :=
        map (fun '(label, c) =>
               (label, Complex (param * real c / 2) (param * imag c / 2))) op in
      inr (half ++ rev half).

(** A restriction with the interface of [get_local_hamiltonian_input], for
    the examples: it raises on a Hamiltonian with an identity term, and
    otherwise keeps the Hamiltonian and counts the qubits of the subrange. *)
Definition whole_hamiltonian : LocalHamiltonian :=
  fun problem idx0 idx1 =>
    if bool_decide (Exists (fun term => term.1 = PAULI_IDENTITY)
                      (qubit_hamiltonian problem))
    then raise (ValueError "identity term")
    else
      mret {| n_state_qubit := Z.to_nat (idx1 - idx0);
              qubit_hamiltonian := qubit_hamiltonian problem |}.

(** An [__eq__] for the examples: comparing two different factories raises. *)
Definition eq_raises : InheritedEq :=
  fun _ _ => raise (AttributeError "__eq__").

Definition X0X1 : PauliLabel :=
  pauli_label [(0%nat, SinglePauli.X); (1%nat, SinglePauli.X)].
Definition Z1 : PauliLabel := pauli_label [(1%nat, SinglePauli.Z)].

(** [1.0 * I + 0.5 * X0 X1 + 0.25 * Z1] on two qubits. *)
Definition sample_hamiltonian : Operator :=
  [(PAULI_IDENTITY, Complex 1 0);
   (X0X1, Complex (1 # 2) 0);
   (Z1, Complex (1 # 4) 0)].

Definition sample_problem : QubitHamiltonianInput :=
  {| n_state_qubit := 2; qubit_hamiltonian := sample_hamiltonian |}.

(** [0.5 * X0 X1 + 0.25 * Z1] on two qubits: no identity term. *)
Definition coupling_problem : QubitHamiltonianInput :=
  {| n_state_qubit := 2;
     qubit_hamiltonian :=
       [(X0X1, Complex (1 # 2) 0); (Z1, Complex (1 # 4) 0)] |}.

(** [1.0 * I] on one qubit. *)
Definition identity_problem : QubitHamiltonianInput :=
  {| n_state_qubit := 1;
     qubit_hamiltonian := [(PAULI_IDENTITY, Complex 1 0)] |}.

(** A hash of the argument tuple that looks at the hash of [self] only:
    all the keys of factories with equal [n_trotter] collide. *)
Definition first_member_hash (hashes : list Z) : Z :=
  default 0%Z (head hashes).

(** ** Vocabulary of the specification *)

(** The gates the specification names for one decomposed term of the plain
    template: nothing for the identity, otherwise one rotation on the
    qubits and axes of the term with angle [2 Re(c) / n_trotter] times [t]. *)
Definition plain_term_gates (n_trotter : Z) (term : PauliLabel * complex)
  : list ParametricGate :=
  if decide (term.1 = PAULI_IDENTITY) then []
  else
    [ParametricPauliRotation
       (index_and_pauli_id_list term.1).1 (index_and_pauli_id_list term.1).2
       (2 * real term.2 / inject_Z n_trotter)].

(** The gates the specification names for one decomposed term of the
    controlled template. *)
Definition controlled_term_gates (n_trotter : Z) (term : PauliLabel * complex)
  : list ParametricGate :=
  if decide (term.1 = PAULI_IDENTITY)
  then [ParametricRZ 0 (- real term.2 / inject_Z n_trotter)]
  else
    let extended : PauliLabel := term.1 ∪ {[ (0%nat, SinglePauli.Z) ]} in
    [ParametricPauliRotation
       (index_and_pauli_id_list term.1).1 (index_and_pauli_id_list term.1).2
       (real term.2 / inject_Z n_trotter);
     ParametricPauliRotation
       (index_and_pauli_id_list extended).1
       (index_and_pauli_id_list extended).2
       (- real term.2 / inject_Z n_trotter)].

(** [k] repetitions of a gate sequence, and [k] concatenations of a unit
    circuit on [n_qubits] qubits. *)
Definition repetitions {A} (k : nat) (l : list A) : list A :=
  concat (replicate k l).

Definition concatenations (n_qubits : nat) (unit : QuantumCircuit) (k : nat)
  : QuantumCircuit :=
  Circuit n_qubits (repetitions k (gates unit)).

(** The gates of an optional circuit. *)
Definition optional_gates (circuit : option QuantumCircuit) : list Gate.t :=
  match circuit with
  | Some circuit => gates circuit
  | None => []
  end.

Definition is_H_on (index : nat) (g : Gate.t) : bool :=
  match g with
  | Gate.H i => Nat.eqb i index
  | _ => false
  end.

Definition is_Sdag (g : Gate.t) : bool :=
  match g with
  | Gate.Sdag _ => true
  | _ => false
  end.

Definition count_gates (p : Gate.t -> bool) (l : list Gate.t) : nat :=
  length (List.filter p l).

(** The library routine rejects depth 0 (quri_parts raises
    [ValueError("Invalid order.")] there). *)
Definition rejects_depth_zero `{SuzukiRoutine} : Prop :=
  forall (op : Operator) (param : Q),
    trotter_suzuki_decomposition op param 0 = inl (ValueError msg_invalid_order).

(** The label with every qubit index incremented by [shift]. *)
Definition shift_label (shift : nat) (op : PauliLabel) : PauliLabel :=
  set_map (fun '(idx, id) => ((idx + shift)%nat, id)) op.

(** Every qubit of a label has index [shift] or more. *)
Definition above (shift : nat) (op : PauliLabel) : Prop :=
  forall q p, (q, p) ∈ op -> (shift <= q)%nat.

(** Exactly one of the two optional arguments is supplied. *)
Definition exactly_one_supplied {A B} (a : option A) (b : option B) : Prop :=
  (is_Some a /\ b = None) \/ (a = None /\ is_Some b).

(** ** Signs of binary64 values *)

(** A float whose sign bit, if it has a value other than zero, is clear. *)
Definition sf_nonneg (x : spec_float) : Prop :=
  match x with
  | S754_zero _ | S754_nan => True
  | S754_infinity s | S754_finite s _ _ => s = false
  end.

(** A positive float: finite or infinite. *)
Definition sf_positive (x : spec_float) : Prop :=
  match x with
  | S754_infinity s | S754_finite s _ _ => s = false
  | S754_zero _ | S754_nan => False
  end.

(** ** Runs of the interpreter

    The worlds a program can reach from the initial one: it may construct
    partial factories, ask them for templates (a call that raises is a step
    too), and run the synthesizers elsewhere. *)
Section Runs.
Context `{SuzukiRoutine} `{LocalHamiltonian} `{InheritedEq}.
Context (tuple_hash : list Z -> Z).

Inductive step : World -> World -> Prop :=
| step_new_factory encoded_problem n_trotter f w w' :
    TrotterPartialTimeEvolutionCircuitFactory.__init__
      encoded_problem n_trotter w = (inr f, w') ->
    step w w'
| step_get_partial self idx0 idx1 r w w' :
    TrotterPartialTimeEvolutionCircuitFactory.get_partial_time_evolution_circuit
      tuple_hash self idx0 idx1 w = (r, w') ->
    step w w'
| step_synthesize w :
    step w (count_synthesis w).


End Runs.

Module Import Partial := TrotterPartialTimeEvolutionCircuitFactory.

(** The entries of the cache with a given hash. *)
Definition bucket (w : World) (h : Z) : list (CacheKey * TemplateObject) :=
  default [] (cache w !! h).



(** ** Vocabulary of the further properties *)

(** The identity terms and the other terms of a term sequence. *)
Definition identity_terms (terms : list (PauliLabel * complex)) : nat :=
  length (filter (fun term => term.1 = PAULI_IDENTITY) terms).

Definition rotation_terms (terms : list (PauliLabel * complex)) : nat :=
  length (filter (fun term => term.1 <> PAULI_IDENTITY) terms).

(** What a gate does to qubit 0: nothing, or a rotation about Z. *)
Definition control_diagonal (g : ParametricGate) : Prop :=
  match g with
  | ParametricRZ index _ => index = 0%nat
  | ParametricPauliRotation target_indices pauli_ids _ =>
      forall p, (0%nat, p) ∈ zip target_indices pauli_ids -> p = SinglePauli.Z
  end.

(** Two Hamiltonians with the same labels and the same real parts. *)
Definition same_real_parts (h1 h2 : Operator) : Prop :=
  Forall2 (fun term1 term2 =>
             term1.1 = term2.1 /\ real term1.2 = real term2.2) h1 h2.


(** The body shared by the two [__call__] methods. *)
Definition interval_call (n_qubits : nat) (unit : QuantumCircuit)
  (time_step evolution_time : Q) : Result QuantumCircuit :=
  '(n_repition, sgn) ← get_evolution_trotter_step time_step evolution_time;
  let circuit :=
    Nat.iter (Z.to_nat n_repition)
      (fun circuit => extend circuit unit) (Circuit n_qubits []) in
  mret (if (sgn >? 0)%Z then circuit else inverse_circuit circuit).



(** [1.0 * I + (0.5 + 1j) * X0 X1 + (0.25 - 2j) * Z1]: the sample
    Hamiltonian with imaginary parts added. *)
Definition sample_hamiltonian_imag : Operator :=
  [(PAULI_IDENTITY, Complex 1 0);
   (X0X1, Complex (1 # 2) 1);
   (Z1, Complex (1 # 4) (-2))].


(** * Theorems *)

(** ** Numbers *)

Lemma Qnum_nonneg (x : Q) : 0 <= x -> (0 <= Qnum x)%Z.
Proof. destruct x as [n d]. unfold Qle. simpl. lia. Qed.

Lemma int_nonneg (x : Q) : 0 <= x -> int x = Qfloor x.
Proof.
  intros Hx. apply Qnum_nonneg in Hx. destruct x as [n d]. simpl in *.
  unfold int. simpl. apply Z.quot_div_nonneg; lia.
Qed.

Lemma int_inject_Z (z : Z) : int (inject_Z z) = z.
Proof. unfold int, inject_Z. simpl. apply Z.quot_1_r. Qed.

Lemma rint_comp (x y : Q) : x == y -> np.rint x = np.rint y.
Proof.
  intros E. unfold np.rint. rewrite (Qfloor_comp _ _ E).
  assert (E' : x - inject_Z (Qfloor y) == y - inject_Z (Qfloor y))
    by (rewrite E; reflexivity).
  rewrite (Qcompare_comp _ _ E' (1 # 2) (1 # 2) (Qeq_refl _)). reflexivity.
Qed.

Lemma rint_inject_Z (k : Z) : np.rint (inject_Z k) = k.
Proof.
  unfold np.rint. cbv zeta. rewrite Qfloor_Z.
  destruct (Qcompare_spec (inject_Z k - inject_Z k) (1 # 2)) as [He|Hl|Hg];
    [exfalso | reflexivity | exfalso];
    generalize dependent (inject_Z k); intros; lra.
Qed.

Lemma round_comp (x y : Q) : x == y -> np.round x 12 == np.round y 12.
Proof.
  intros E. unfold np.round.
  rewrite (rint_comp (x * inject_Z (10 ^ 12)) (y * inject_Z (10 ^ 12)))
    by (rewrite E; reflexivity).
  reflexivity.
Qed.

Lemma round_inject_Z (k : Z) : np.round (inject_Z k) 12 == inject_Z k.
Proof.
  unfold np.round. rewrite <- inject_Z_mult, rint_inject_Z, inject_Z_mult.
  field. discriminate.
Qed.

Lemma Qgtb_true (a b : Q) : Qgtb a b = true <-> b < a.
Proof.
  unfold Qgtb. rewrite negb_true_iff, <- not_true_iff_false, Qle_bool_iff.
  split; [apply Qnot_le_lt | apply Qlt_not_le].
Qed.

Lemma isclose_true (a b : Q) :
  np.isclose a b = true <-> Qabs (a - b) <= np.atol + np.rtol * Qabs b.
Proof. unfold np.isclose. apply Qle_bool_iff. Qed.

Lemma sgn_Qnum_pos (x : Q) : 0 < x -> Z.sgn (Qnum x) = 1%Z.
Proof. destruct x as [n d]. unfold Qlt. simpl. lia. Qed.

Lemma sgn_Qnum_neg (x : Q) : x < 0 -> Z.sgn (Qnum x) = (-1)%Z.
Proof. destruct x as [n d]. unfold Qlt. simpl. lia. Qed.

Lemma sgn_Qnum_zero (x : Q) : x == 0 -> Z.sgn (Qnum x) = 0%Z.
Proof. destruct x as [n d]. unfold Qeq. simpl. lia. Qed.

Lemma Qabs_inject_Z (m : Z) : Qabs (inject_Z m) = inject_Z (Z.abs m).
Proof. reflexivity. Qed.

(** The computation, once the precondition holds. *)
Lemma get_evolution_trotter_step_unfold (time_step evolution_time : Q) :
  0 < time_step ->
  get_evolution_trotter_step time_step evolution_time =
    let step := Qabs evolution_time / time_step in
    if np.isclose (np.round step 12) (inject_Z (int step))
    then inr (int (np.round step 12), Z.sgn (Qnum evolution_time))
    else inl (ValueError msg_not_multiple).
Proof.
  intros Hts. unfold get_evolution_trotter_step.
  apply Qgtb_true in Hts. rewrite Hts. cbn [negb]. cbv zeta.
  unfold np.abs, np.sign. rewrite int_inject_Z.
  destruct (np.isclose _ _); reflexivity.
Qed.

Lemma step_nonneg (time_step evolution_time : Q) :
  0 < time_step -> 0 <= Qabs evolution_time / time_step.
Proof.
  intros Hts. apply Qle_shift_div_l; [exact Hts|].
  rewrite Qmult_0_l. apply Qabs_nonneg.
Qed.

Lemma step_of_multiple (time_step evolution_time : Q) (m : Z) :
  0 < time_step -> evolution_time == inject_Z m * time_step ->
  Qabs evolution_time / time_step == inject_Z (Z.abs m).
Proof.
  intros Hts E. rewrite E, Qabs_Qmult, Qabs_inject_Z, (Qabs_pos time_step).
  - apply Qdiv_mult_l. lra.
  - lra.
Qed.

Lemma sgn_of_multiple (time_step evolution_time : Q) (m : Z) :
  0 < time_step -> evolution_time == inject_Z m * time_step ->
  Z.sgn (Qnum evolution_time) = Z.sgn m.
Proof.
  intros Hts E. destruct (Z.lt_trichotomy m 0) as [Hm | [-> | Hm]].
  - rewrite (Z.sgn_neg m Hm). apply sgn_Qnum_neg.
    rewrite Zlt_Qlt in Hm. change (inject_Z 0) with 0 in Hm.
    generalize dependent (inject_Z m). intros. nra.
  - apply sgn_Qnum_zero. rewrite E. ring.
  - rewrite (Z.sgn_pos m Hm). apply sgn_Qnum_pos.
    rewrite Zlt_Qlt in Hm. change (inject_Z 0) with 0 in Hm.
    generalize dependent (inject_Z m). intros. nra.
Qed.

Lemma get_evolution_trotter_step_multiple (time_step evolution_time : Q) (m : Z) :
  0 < time_step -> evolution_time == inject_Z m * time_step ->
  get_evolution_trotter_step time_step evolution_time
  = inr (Z.abs m, Z.sgn m).
Proof.
  intros Hts E. rewrite get_evolution_trotter_step_unfold by exact Hts.
  cbv zeta. pose proof (step_of_multiple _ _ _ Hts E) as Hs.
  pose proof (step_nonneg _ evolution_time Hts) as H0.
  set (step := Qabs evolution_time / time_step) in *.
  assert (Hr : np.round step 12 == inject_Z (Z.abs m)).
  { rewrite (round_comp _ _ Hs). apply round_inject_Z. }
  assert (Hi : int step = Z.abs m).
  { rewrite int_nonneg by exact H0. rewrite (Qfloor_comp _ _ Hs).
    apply Qfloor_Z. }
  assert (Hc : np.isclose (np.round step 12) (inject_Z (int step)) = true).
  { apply isclose_true. rewrite Hi, Hr.
    assert (E0 : inject_Z (Z.abs m) - inject_Z (Z.abs m) == 0) by ring.
    rewrite E0. pose proof (Qabs_nonneg (inject_Z (Z.abs m))) as Hq.
    unfold np.atol, np.rtol. change (Qabs 0) with 0.
    revert Hq. generalize (Qabs (inject_Z (Z.abs m))). intros q Hq. lra. }
  rewrite Hc. f_equal. f_equal.
  - rewrite int_nonneg.
    + rewrite (Qfloor_comp _ _ Hr). apply Qfloor_Z.
    + rewrite Hr. rewrite <- Qabs_inject_Z. apply Qabs_nonneg.
  - eapply sgn_of_multiple; eauto.
Qed.


(** ** The step computation in binary64 *)

Lemma Prim2SF_zero : Prim2SF 0 = S754_zero false.
Proof. reflexivity. Qed.

Lemma positive_float (x : float) :
  (0 <? x)%float = true -> sf_positive (Prim2SF x).
Proof.
  rewrite FloatAxioms.ltb_spec, Prim2SF_zero. unfold SFltb, SFcompare.
  destruct (Prim2SF x) as [s|[]| |[] m e]; simpl; congruence.
Qed.

Lemma binary_round_aux_nonneg (mx ex : Z) (lx : location) :
  sf_nonneg (binary_round_aux prec emax false mx ex lx).
Proof.
  unfold binary_round_aux.
  destruct (shr_fexp prec emax mx ex lx) as [mrs' e'].
  destruct (shr_fexp prec emax _ e' loc_Exact) as [mrs'' e''].
  destruct (shr_m mrs''); [exact I | | exact I].
  destruct (Z.leb _ _); reflexivity.
Qed.

Lemma SFdiv_nonneg (x y : spec_float) :
  sf_nonneg x -> sf_positive y -> sf_nonneg (SFdiv prec emax x y).
Proof.
  destruct x as [sx|sx| |sx mx ex], y as [sy|sy| |sy my ey]; simpl;
    try done; intros; subst; try done.
  destruct (SFdiv_core_binary _ _ _ _ _ _) as [[mz ez] lz].
  apply binary_round_aux_nonneg.
Qed.

Lemma SFmul_nonneg (x y : spec_float) :
  sf_nonneg x -> sf_positive y -> sf_nonneg (SFmul prec emax x y).
Proof.
  destruct x as [sx|sx| |sx mx ex], y as [sy|sy| |sy my ey]; simpl;
    try done; intros; subst; try done.
  apply binary_round_aux_nonneg.
Qed.

Lemma of_uint63_nonneg (n : PrimInt63.int) : sf_nonneg (Prim2SF (of_uint63 n)).
Proof.
  rewrite of_uint63_spec. pose proof (Uint63.to_Z_bounded n) as [Hn _].
  unfold binary_normalize. destruct (Uint63.to_Z n) as [|p|p]; [exact I| |lia].
  unfold binary_round. destruct (shl_align _ _ _) as [mz ez].
  apply binary_round_aux_nonneg.
Qed.

Lemma rint_nonneg (x : float) :
  sf_nonneg (Prim2SF x) -> sf_nonneg (Prim2SF (Binary64.np.rint x)).
Proof.
  intros Hx. unfold Binary64.np.rint.
  destruct (Prim2SF x) as [s|s| |s m e] eqn:Ex; try (by rewrite Ex).
  simpl in Hx. subst s. destruct (0 <=? e)%Z; [by rewrite Ex|].
  apply of_uint63_nonneg.
Qed.

Lemma scale12 :
  sf_positive (Prim2SF (Binary64.float_of_int (10 ^ 12))).
Proof. vm_compute. reflexivity. Qed.

Lemma round_nonneg (x : float) :
  sf_nonneg (Prim2SF x) -> sf_nonneg (Prim2SF (Binary64.np.round x 12)).
Proof.
  intros Hx. unfold Binary64.np.round. cbv zeta.
  rewrite div_spec. apply SFdiv_nonneg; [|exact scale12].
  apply rint_nonneg. rewrite mul_spec. apply SFmul_nonneg; [exact Hx|].
  exact scale12.
Qed.

Lemma int_nonneg_float (x : float) (n : Z) :
  sf_nonneg (Prim2SF x) -> Binary64.int x = inr n -> (0 <= n)%Z.
Proof.
  unfold Binary64.int. destruct (Prim2SF x) as [s|s| |s m e]; simpl;
    intros Hx [= <-]; [lia|]. subst s. apply Z.shiftl_nonneg. lia.
Qed.

Lemma step_nonneg_float (time_step evolution_time : float) :
  (0 <? time_step)%float = true ->
  sf_nonneg (Prim2SF (Binary64.np.abs evolution_time / time_step)).
Proof.
  intros Hts. rewrite div_spec. apply SFdiv_nonneg.
  - unfold Binary64.np.abs. rewrite abs_spec.
    by destruct (Prim2SF evolution_time).
  - by apply positive_float.
Qed.

(** What [int(np.sign(x))] returns. *)
Lemma int_sign (x : float) (sgn : Z) :
  Binary64.int (Binary64.np.sign x) = inr sgn ->
  (sgn = 1%Z /\ (0 <? x)%float = true)
  \/ (sgn = 0%Z /\ (x =? 0)%float = true)
  \/ (sgn = (-1)%Z /\ (x <? 0)%float = true).
Proof.
  unfold Binary64.np.sign.
  destruct (0 <? x)%float eqn:Hpos.
  { intros [= <-]. by left. }
  destruct (x <? 0)%float eqn:Hneg.
  { intros [= <-]. right. by right. }
  destruct (x =? 0)%float eqn:Hzero.
  { intros [= <-]. right. by left. }
  rewrite FloatAxioms.ltb_spec, Prim2SF_zero in Hpos.
  rewrite FloatAxioms.ltb_spec, Prim2SF_zero in Hneg.
  rewrite FloatAxioms.eqb_spec, Prim2SF_zero in Hzero.
  unfold Binary64.int, raise, SFltb, SFeqb, SFcompare in *.
  destruct (Prim2SF x) as [s|[]| |[] m e]; simpl in *; congruence.
Qed.

(** C6, as amended.  An accepted evolution time gives a repetition count
    that is not negative and a sign among 1, 0 and -1: 1 for a positive
    evolution time, -1 for a negative one, 0 for a zero; the time step of an
    accepted call is positive. *)
Theorem step_count_and_sign (time_step evolution_time : float) (n sgn : Z) :
  Binary64.get_evolution_trotter_step time_step evolution_time
  = inr (n, sgn) ->
  (0 <? time_step)%float = true
  /\ (0 <= n)%Z
  /\ ((sgn = 1%Z /\ (0 <? evolution_time)%float = true)
      \/ (sgn = 0%Z /\ (evolution_time =? 0)%float = true)
      \/ (sgn = (-1)%Z /\ (evolution_time <? 0)%float = true)).
Proof.
  unfold Binary64.get_evolution_trotter_step, raise.
  destruct (0 <? time_step)%float eqn:Hts; [|discriminate]. cbn [negb].
  cbv zeta. pose proof (step_nonneg_float _ evolution_time Hts) as Hstep.
  set (step := (Binary64.np.abs evolution_time / time_step)%float) in *.
  destruct (Binary64.int step) as [e|truncated]; [discriminate|].
  cbn [mbind Result_bind].
  destruct (negb _); [discriminate|].
  destruct (Binary64.int (Binary64.np.round step 12)) as [e|n'] eqn:Hn;
    [discriminate|]. cbn [mbind Result_bind].
  destruct (Binary64.int (Binary64.np.sign evolution_time)) as [e|sgn'] eqn:Hs;
    [discriminate|]. cbn [mbind Result_bind].
  intros [= <- <-]. split; [reflexivity|]. split.
  - eapply int_nonneg_float; [|exact Hn]. by apply round_nonneg.
  - by apply int_sign.
Qed.

Lemma scale12_value :
  Prim2SF (Binary64.float_of_int (10 ^ 12))
  = S754_finite false 8192000000000000 (-13).
Proof. vm_compute. reflexivity. Qed.

(** C4: the check of the step rejects an evolution time that C4 has
    accepted.  With the double 0.7 as time step and the float product
    [3 * 0.7] as evolution time, the evolution time is within 1e-12 of three
    time steps and the step rounded to 12 decimals is the integer 3; the
    check compares it with [int(step) = 2], the step truncated, and raises
    the ValueError.  The same check raises on the exact multiple [1e300] of
    the time step 1, where the rounding overflows, and accepts the
    evolution time [3 + 2^-20], whose rounded step is no integer. *)
Theorem step_check_truncates :
  (let time_step := 0x1.6666666666666p-1%float in
   let evolution_time := (3 * time_step)%float in
   let step := (Binary64.np.abs evolution_time / time_step)%float in
   (0 <? time_step)%float = true
   /\ Qabs (double evolution_time - 3 * double time_step) <= 1 # 10 ^ 12
   /\ Binary64.np.round step 12 = 3%float
   /\ Binary64.int step = inr 2%Z
   /\ Binary64.get_evolution_trotter_step time_step evolution_time
      = inl (ValueError msg_not_multiple))
  /\ Binary64.get_evolution_trotter_step 1 0x1.7e43c8800759cp+996
     = inl (ValueError msg_not_multiple)
  /\ (let evolution_time := (3 + 0x1p-20)%float in
      let rounded :=
        Binary64.np.round (Binary64.np.abs evolution_time / 1) 12 in
      (3 <? rounded)%float = true /\ (rounded <? 4)%float = true
      /\ Binary64.get_evolution_trotter_step 1 evolution_time
         = inr (3%Z, 1%Z)).
Proof.
  split; [|split].
  - cbv zeta. split; [reflexivity|]. split; [vm_compute; discriminate|].
    split; [vm_compute; reflexivity|].
    split; vm_compute; reflexivity.
  - vm_compute. reflexivity.
  - cbv zeta. split; [|split]; vm_compute; reflexivity.
Qed.

(** ** Templates *)

Lemma repetitions_S {A} (k : nat) (l : list A) :
  repetitions (Datatypes.S k) l = repetitions k l ++ l.
Proof.
  unfold repetitions. induction k as [|k IH].
  - cbn. by rewrite app_nil_r.
  - change (replicate (Datatypes.S (Datatypes.S k)) l)
      with (l :: replicate (Datatypes.S k) l).
    cbn [concat]. rewrite IH at 1. cbn. by rewrite app_assoc.
Qed.

Lemma plain_term_step circuit op coeff n_trotter :
  _add_single_term_for_trotter_time_evolution circuit op coeff n_trotter
  = ParametricCircuit (param_qubit_count circuit)
      (param_gates circuit ++ plain_term_gates n_trotter (op, coeff)).
Proof.
  unfold _add_single_term_for_trotter_time_evolution, plain_term_gates.
  simpl. destruct (decide (op = PAULI_IDENTITY)).
  - rewrite app_nil_r. by destruct circuit.
  - reflexivity.
Qed.

Lemma extended_label (op : PauliLabel) :
  pauli_label (str op ++ [(0%nat, SinglePauli.Z)])
  = op ∪ {[ (0%nat, SinglePauli.Z) ]}.
Proof.
  unfold pauli_label, str.
  by rewrite list_to_set_snoc_L, list_to_set_elements_L.
Qed.

Lemma controlled_term_step circuit op coeff n_trotter :
  _add_single_term_for_controlled_time_evolution circuit op coeff n_trotter
  = ParametricCircuit (param_qubit_count circuit)
      (param_gates circuit ++ controlled_term_gates n_trotter (op, coeff)).
Proof.
  unfold _add_single_term_for_controlled_time_evolution,
    controlled_term_gates.
  simpl. destruct (decide (op = PAULI_IDENTITY)); [reflexivity|].
  rewrite extended_label. unfold add_ParametricPauliRotation_gate. simpl.
  by rewrite <- app_assoc.
Qed.

(** One pass over the term sequence appends the gates of every term. *)
Lemma terms_pass (add : LinearMappedUnboundParametricQuantumCircuit ->
                       PauliLabel -> complex -> Z ->
                       LinearMappedUnboundParametricQuantumCircuit)
  (term_gates : Z -> PauliLabel * complex -> list ParametricGate) n_trotter :
  (forall circuit op coeff,
      add circuit op coeff n_trotter
      = ParametricCircuit (param_qubit_count circuit)
          (param_gates circuit ++ term_gates n_trotter (op, coeff))) ->
  forall terms circuit,
    fold_left (fun circuit '(op, coef) => add circuit op coef n_trotter)
      terms circuit
    = ParametricCircuit (param_qubit_count circuit)
        (param_gates circuit ++ flat_map (term_gates n_trotter) terms).
Proof.
  intros Hadd terms. induction terms as [|[op coef] terms IH]; intros circuit.
  - simpl. rewrite app_nil_r. by destruct circuit.
  - simpl. rewrite IH, Hadd. simpl. by rewrite <- app_assoc.
Qed.

(** The Trotter repetitions repeat the pass. *)
Lemma trotter_passes (pass : LinearMappedUnboundParametricQuantumCircuit ->
                             LinearMappedUnboundParametricQuantumCircuit)
  (emitted : list ParametricGate) :
  (forall circuit,
      pass circuit
      = ParametricCircuit (param_qubit_count circuit)
          (param_gates circuit ++ emitted)) ->
  forall k circuit,
    Nat.iter k pass circuit
    = ParametricCircuit (param_qubit_count circuit)
        (param_gates circuit ++ repetitions k emitted).
Proof.
  intros Hpass k circuit. induction k as [|k IH].
  - simpl. unfold repetitions. simpl. rewrite app_nil_r. by destruct circuit.
  - simpl. rewrite IH, Hpass, repetitions_S. simpl. by rewrite <- app_assoc.
Qed.

(** ** The shifted Hamiltonian leaves qubit 0 free *)

Lemma dict_set_keys (P : PauliLabel -> Prop) self key value :
  Forall (fun kv => P kv.1) self -> P key ->
  Forall (fun kv => P kv.1) (dict_set self key value).
Proof.
  intros Hself Hkey. induction Hself as [|[k v] rest Hk Hrest IH]; simpl.
  - by constructor.
  - destruct (decide (k = key)); constructor; auto.
Qed.

Lemma dict_del_keys (P : PauliLabel -> Prop) self key :
  Forall (fun kv => P kv.1) self ->
  Forall (fun kv => P kv.1) (dict_del self key).
Proof.
  intros Hself. unfold dict_del. apply Forall_forall. intros kv Hin.
  apply list_elem_of_filter in Hin as [_ Hin].
  by apply (proj1 (Forall_forall _ _) Hself).
Qed.

Lemma add_term_keys (P : PauliLabel -> Prop) self label coef :
  Forall (fun kv => P kv.1) self -> P label ->
  Forall (fun kv => P kv.1) (add_term self label coef).
Proof.
  intros Hself Hlabel. unfold add_term.
  destruct (complex_is_zero coef); [done|]. cbv zeta.
  destruct (complex_is_zero _);
    [apply dict_del_keys|]; by apply dict_set_keys.
Qed.

Lemma shifted_label_above (op : PauliLabel) (shift : nat) :
  above shift
    (pauli_label
       (map (fun '(idx, id) => ((idx + shift)%nat, id))
          (zip (index_and_pauli_id_list op).1
               (index_and_pauli_id_list op).2))).
Proof.
  intros q p Hin. unfold pauli_label in Hin.
  apply elem_of_list_to_set, list_elem_of_In, in_map_iff in Hin.
  destruct Hin as ([idx id] & Heq & _). injection Heq as <- _. lia.
Qed.

Lemma get_shifted_hamiltonian_above (hamiltonian : Operator) (shift : nat) :
  Forall (fun kv => above shift kv.1)
    (get_shifted_hamiltonian hamiltonian shift).
Proof.
  unfold get_shifted_hamiltonian.
  assert (Hgen : forall acc : Operator,
             Forall (fun kv => above shift kv.1) acc ->
             Forall (fun kv => above shift kv.1)
               (fold_left
                  (fun hamiltonian_shifted '(op, coef) =>
                     if decide (op = PAULI_IDENTITY)
                     then add_term hamiltonian_shifted PAULI_IDENTITY coef
                     else
                       let '(indices, ids) := index_and_pauli_id_list op in
                       let idx_id_iterable :=
                         map (fun '(idx, id) => ((idx + shift)%nat, id))
                           (zip indices ids) in
                       add_term hamiltonian_shifted
                         (pauli_label idx_id_iterable) coef)
                  hamiltonian acc)).
  { induction hamiltonian as [|[op coef] rest IH]; intros acc Hacc; simpl.
    - exact Hacc.
    - apply IH. destruct (decide (op = PAULI_IDENTITY)).
      + apply add_term_keys; [exact Hacc|].
        intros q p Hin. unfold PAULI_IDENTITY in Hin. set_solver.
      + apply add_term_keys; [exact Hacc|]. apply shifted_label_above. }
  apply Hgen. constructor.
Qed.

Lemma map_fmap {A B} (f : A -> B) (l : list A) : map f l = f <$> l.
Proof. induction l as [|a l IH]; [done|]. cbn. by rewrite IH. Qed.

Lemma shifted_label_eq (op : PauliLabel) (shift : nat) :
  pauli_label
    (map (fun '(idx, id) => ((idx + shift)%nat, id))
       (zip (index_and_pauli_id_list op).1 (index_and_pauli_id_list op).2))
  = shift_label shift op.
Proof.
  unfold index_and_pauli_id_list, pauli_label, shift_label, set_map. simpl.
  by rewrite zip_fst_snd, map_fmap.
Qed.

Lemma shift_label_inj (shift : nat) : Inj (=) (=) (shift_label shift).
Proof.
  intros op1 op2 Heq. apply set_eq. intros [q p].
  assert (Hmem : forall op : PauliLabel,
             (q, p) ∈ op <-> ((q + shift)%nat, p) ∈ shift_label shift op).
  { intros op. unfold shift_label. rewrite elem_of_map. split.
    - intros Hin. by exists (q, p).
    - intros ([q' p'] & Heq' & Hin). injection Heq' as Hq ->.
      by replace q with q' by lia. }
  by rewrite !Hmem, Heq.
Qed.

Lemma Qplus_0_l_eq (q : Q) : 0 + q = q.
Proof. destruct q as [n d]. unfold Qplus. simpl. by rewrite Z.mul_1_r. Qed.

Lemma dict_get_fresh (self : Operator) key default :
  key ∉ self.*1 -> dict_get self key default = default.
Proof.
  induction self as [|[k v] rest IH]; [done|]. simpl.
  rewrite not_elem_of_cons. intros [Hne Hrest].
  by rewrite decide_False, IH.
Qed.

Lemma dict_set_fresh (self : Operator) key value :
  key ∉ self.*1 -> dict_set self key value = self ++ [(key, value)].
Proof.
  induction self as [|[k v] rest IH]; [done|]. simpl.
  rewrite not_elem_of_cons. intros [Hne Hrest].
  by rewrite decide_False, IH.
Qed.

Lemma add_term_fresh (self : Operator) label coef :
  label ∉ self.*1 -> complex_is_zero coef = false ->
  add_term self label coef = self ++ [(label, coef)].
Proof.
  intros Hfresh Hnz. unfold add_term. rewrite Hnz. cbv zeta.
  rewrite dict_get_fresh by done.
  assert (Hsum : complex_add (Complex 0 0) coef = coef).
  { destruct coef as [re im]. unfold complex_add. simpl.
    by rewrite !Qplus_0_l_eq. }
  by rewrite Hsum, Hnz, dict_set_fresh.
Qed.

(** A Hamiltonian with distinct labels and no zero coefficient is shifted
    term by term, in order. *)
Lemma get_shifted_hamiltonian_items (hamiltonian : Operator) (shift : nat) :
  NoDup hamiltonian.*1 ->
  Forall (fun term => complex_is_zero term.2 = false) hamiltonian ->
  get_shifted_hamiltonian hamiltonian shift
  = map (fun term => (shift_label shift term.1, term.2)) hamiltonian.
Proof.
  intros Hdistinct Hnonzero. unfold get_shifted_hamiltonian.
  match goal with |- fold_left ?f _ _ = _ => set (body := f) end.
  assert (Hstep : forall (acc : Operator) op coef,
             shift_label shift op ∉ acc.*1 -> complex_is_zero coef = false ->
             body acc (op, coef) = acc ++ [(shift_label shift op, coef)]).
  { intros acc op coef Hfresh Hcoef. subst body. cbv beta iota.
    destruct (decide (op = PAULI_IDENTITY)) as [->|Hne].
    - assert (Hid : shift_label shift PAULI_IDENTITY = PAULI_IDENTITY)
        by apply set_map_empty.
      rewrite Hid in *. by apply add_term_fresh.
    - pose proof (shifted_label_eq op shift) as Hlabel.
      unfold index_and_pauli_id_list in *. simpl in Hlabel.
      rewrite Hlabel. by apply add_term_fresh. }
  clearbody body.
  assert (Hgen : forall (rest acc : Operator),
             NoDup (acc.*1 ++ (shift_label shift <$> rest.*1)) ->
             Forall (fun term => complex_is_zero term.2 = false) rest ->
             fold_left body rest acc
             = acc ++ map (fun term => (shift_label shift term.1, term.2))
                        rest).
  { induction rest as [|[op coef] rest IH]; intros acc Hnd Hnz.
    - simpl. by rewrite app_nil_r.
    - inversion Hnz as [|? ? Hcoef Hrest]; subst. simpl in Hcoef.
      simpl in Hnd. apply NoDup_app in Hnd as (Hacc & Hsep & Hnd).
      apply NoDup_cons in Hnd as [Hop Hnd].
      assert (Hfresh : shift_label shift op ∉ acc.*1).
      { intros Hin. apply (Hsep _ Hin). left. }
      cbn [fold_left]. rewrite (Hstep _ _ _ Hfresh Hcoef), IH.
      + cbn [map]. by rewrite <- app_assoc.
      + rewrite fmap_app. simpl. rewrite <- app_assoc. simpl.
        apply NoDup_app. split; [exact Hacc|]. split.
        * intros x Hx. rewrite elem_of_cons. intros [->|Hin].
          -- by apply Hfresh.
          -- apply (Hsep _ Hx). by right.
        * by apply NoDup_cons.
      + exact Hrest. }
  rewrite (Hgen hamiltonian []); [done | | done].
  simpl. by apply (@NoDup_fmap_2 _ _ _ (shift_label_inj shift)).
Qed.

(** ** The two synthesizers and the selector *)

Section Synthesizers.
Context `{SuzukiRoutine}.

(** C2.  For every Hamiltonian, [n_trotter >= 1] and supported order (the
    selector returns a term sequence), the plain template has
    [n_state_qubits] qubits and its gates are [n_trotter] repetitions of the
    pass over the decomposed terms: no gate for an identity term, and for
    every other term one parametrized Pauli rotation on the qubits and axes
    of the term with angle coefficient [2 * Re(coefficient) / n_trotter].  In
    particular the template of [1.0 * I] on one qubit with [n_trotter = 1] and
    order 1, bound at [t = 2.0], is the empty circuit. *)
Theorem plain_template_gates
  (hamiltonian : Operator) (n_state_qubits : nat) (n_trotter trotter_order : Z)
  (terms : list (PauliLabel * complex)) :
  (1 <= n_trotter)%Z ->
  _get_trotter_pauli_coefficient_pairs hamiltonian trotter_order = inr terms ->
  get_trotter_time_evolution_operator
    hamiltonian n_state_qubits n_trotter trotter_order
  = inr (ParametricCircuit n_state_qubits
           (repetitions (Z.to_nat n_trotter)
              (flat_map (plain_term_gates n_trotter) terms)))
  /\ (template ← get_trotter_time_evolution_operator
                    [(PAULI_IDENTITY, Complex 1 0)] 1 1 1;
      mret (bind_parameters template 2))
     = inr (Circuit 1 []).
Proof.
  intros _ Hterms. split.
  - unfold get_trotter_time_evolution_operator. rewrite Hterms.
    simpl. unfold mret, Result_ret. f_equal.
    rewrite (trotter_passes _
               (flat_map (plain_term_gates n_trotter) terms)); [done|].
    intros circuit.
    apply (terms_pass _add_single_term_for_trotter_time_evolution
             plain_term_gates).
    intros. apply plain_term_step.
  - reflexivity.
Qed.

(** C1.  For every Hamiltonian, [n_trotter >= 1] and supported order, the
    controlled template has [n_state_qubits + 1] qubits and its gates are
    [n_trotter] repetitions of the pass over the decomposed terms of the
    Hamiltonian shifted by 1: for an identity term one parametrized RZ on
    qubit 0 with angle coefficient [- Re(coefficient) / n_trotter]; for every
    other term two parametrized Pauli rotations in this order, one on the
    term with coefficient [+ Re(coefficient) / n_trotter], then one on the
    term extended by Pauli Z on qubit 0 with coefficient
    [- Re(coefficient) / n_trotter].  The shift leaves qubit 0 free, and it
    maps a Hamiltonian with distinct labels and no zero coefficient term by
    term. *)
Theorem controlled_template_gates
  (hamiltonian : Operator) (n_state_qubits : nat) (n_trotter trotter_order : Z)
  (terms : list (PauliLabel * complex)) :
  (1 <= n_trotter)%Z ->
  _get_trotter_pauli_coefficient_pairs
    (get_shifted_hamiltonian hamiltonian 1) trotter_order = inr terms ->
  get_trotter_controlled_time_evolution_operator
    hamiltonian n_state_qubits n_trotter trotter_order
  = inr (ParametricCircuit (n_state_qubits + 1)
           (repetitions (Z.to_nat n_trotter)
              (flat_map (controlled_term_gates n_trotter) terms)))
  /\ Forall (fun term => above 1 term.1)
       (get_shifted_hamiltonian hamiltonian 1)
  /\ (NoDup hamiltonian.*1 ->
      Forall (fun term => complex_is_zero term.2 = false) hamiltonian ->
      get_shifted_hamiltonian hamiltonian 1
      = map (fun term => (shift_label 1 term.1, term.2)) hamiltonian).
Proof.
  intros _ Hterms.
  split; [|split; [apply get_shifted_hamiltonian_above
                  |apply get_shifted_hamiltonian_items]].
  unfold get_trotter_controlled_time_evolution_operator. cbv zeta.
  rewrite Hterms. simpl. unfold mret, Result_ret. f_equal.
  rewrite (trotter_passes _
             (flat_map (controlled_term_gates n_trotter) terms)); [done|].
  intros circuit.
  apply (terms_pass _add_single_term_for_controlled_time_evolution
           controlled_term_gates).
  intros. apply controlled_term_step.
Qed.

Lemma comprehension_id (decomposition : list (PauliLabel * complex)) :
  map (fun '(op, coeff) => (op, coeff)) decomposition = decomposition.
Proof.
  induction decomposition as [|[op coeff] rest IH]; simpl; congruence.
Qed.

(** C5.  The selector returns the items of the Hamiltonian in their order
    when the order is 1; it returns what the Suzuki routine returns for the
    Hamiltonian at time 1 and depth [order // 2] when the order is even and
    greater than 1; it fails with the assertion on the order when the order
    is odd and greater than 1; and it fails at order 0, which passes the
    assertion (0 is even) and is rejected by the Suzuki routine: quri_parts
    raises [ValueError("Invalid order.")] at depth 0. *)
Theorem selector_by_order (hamiltonian : Operator) (trotter_order : Z) :
  rejects_depth_zero ->
  (trotter_order = 1%Z ->
   _get_trotter_pauli_coefficient_pairs hamiltonian trotter_order
   = inr hamiltonian)
  /\ ((trotter_order mod 2 = 0)%Z -> (1 < trotter_order)%Z ->
      _get_trotter_pauli_coefficient_pairs hamiltonian trotter_order
      = trotter_suzuki_decomposition hamiltonian 1 (trotter_order / 2)%Z)
  /\ ((trotter_order mod 2 <> 0)%Z -> (1 < trotter_order)%Z ->
      _get_trotter_pauli_coefficient_pairs hamiltonian trotter_order
      = inl (AssertionError msg_trotter_order))
  /\ (trotter_order = 0%Z ->
      _get_trotter_pauli_coefficient_pairs hamiltonian trotter_order
      = inl (ValueError msg_invalid_order)).
Proof.
  intros Hlibrary.
  assert (Heven : forall order, order <> 1%Z -> (order mod 2 = 0)%Z ->
            _get_trotter_pauli_coefficient_pairs hamiltonian order
            = trotter_suzuki_decomposition hamiltonian 1 (order / 2)%Z).
  { intros order Hne Hmod. unfold _get_trotter_pauli_coefficient_pairs.
    apply Z.eqb_neq in Hne. rewrite Hne. apply Z.eqb_eq in Hmod.
    rewrite Hmod. cbn [negb].
    destruct (trotter_suzuki_decomposition _ _ _) as [e|decomposition];
      [reflexivity|].
    cbn. unfold mret, Result_ret. by rewrite comprehension_id. }
  split; [|split; [|split]].
  - intros ->. reflexivity.
  - intros Hmod Hgt. apply Heven; [lia | exact Hmod].
  - intros Hmod Hgt. unfold _get_trotter_pauli_coefficient_pairs.
    assert (Hne : (trotter_order =? 1)%Z = false) by (apply Z.eqb_neq; lia).
    rewrite Hne. apply Z.eqb_neq in Hmod. by rewrite Hmod.
  - intros ->. rewrite (Heven 0%Z) by done. apply Hlibrary.
Qed.

End Synthesizers.

(** The gate sequence of the Hadamard-test circuit. *)
Lemma construct_hadamard_circuit_gates
  (time_evolution_circuit : QuantumCircuit) (test_real : bool)
  (preprocess_circuit postprocess_circuit : option QuantumCircuit) :
  gates (construct_hadamard_circuit time_evolution_circuit test_real
           preprocess_circuit postprocess_circuit)
  = [Gate.H 0]
    ++ (optional_gates preprocess_circuit ++ gates time_evolution_circuit
          ++ optional_gates postprocess_circuit)
    ++ (if test_real then [] else [Gate.Sdag 0])
    ++ [Gate.H 0].
Proof.
  unfold construct_hadamard_circuit.
  destruct preprocess_circuit, postprocess_circuit, test_real; simpl;
    rewrite <- ?app_assoc, ?app_nil_r; reflexivity.
Qed.

(** C9, as amended.  The wrapper returns exactly: H on qubit 0, the
    preprocess circuit if given, the inner circuit, the postprocess circuit
    if given, S-dagger on qubit 0 if and only if [test_real] is false, H on
    qubit 0.  Hence it has two more Hadamard gates on qubit 0 than the
    circuits it wraps, and one more S-dagger gate than them exactly when
    [test_real] is false. *)
Theorem hadamard_gate_sequence
  (time_evolution_circuit : QuantumCircuit) (test_real : bool)
  (preprocess_circuit postprocess_circuit : option QuantumCircuit) :
  let wrapped :=
    gates (construct_hadamard_circuit time_evolution_circuit test_real
             preprocess_circuit postprocess_circuit) in
  let inner :=
    optional_gates preprocess_circuit ++ gates time_evolution_circuit
      ++ optional_gates postprocess_circuit in
  wrapped
  = [Gate.H 0] ++ inner ++ (if test_real then [] else [Gate.Sdag 0])
    ++ [Gate.H 0]
  /\ count_gates (is_H_on 0) wrapped
     = (2 + count_gates (is_H_on 0) inner)%nat
  /\ count_gates is_Sdag wrapped
     = ((if test_real then 0 else 1) + count_gates is_Sdag inner)%nat.
Proof.
  cbv zeta. rewrite construct_hadamard_circuit_gates.
  split; [reflexivity|]. unfold count_gates.
  rewrite !List.filter_app, !length_app.
  destruct test_real; simpl; split; lia.
Qed.

(** C10.  The circuit returned by the wrapper has the qubit count of the
    inner circuit: no ancilla is added, and the test qubit is qubit 0 of the
    inner circuit, on which the first and the last gate (both H) act. *)
Theorem hadamard_qubit_count
  (time_evolution_circuit : QuantumCircuit) (test_real : bool)
  (preprocess_circuit postprocess_circuit : option QuantumCircuit) :
  let wrapped :=
    construct_hadamard_circuit time_evolution_circuit test_real
      preprocess_circuit postprocess_circuit in
  qubit_count wrapped = qubit_count time_evolution_circuit
  /\ head (gates wrapped) = Some (Gate.H 0)
  /\ last (gates wrapped) = Some (Gate.H 0).
Proof.
  cbv zeta. split; [|split].
  - unfold construct_hadamard_circuit.
    by destruct preprocess_circuit, postprocess_circuit, test_real.
  - by rewrite construct_hadamard_circuit_gates.
  - rewrite construct_hadamard_circuit_gates, !app_assoc. apply last_snoc.
Qed.

(** ** Factories *)

Lemma extend_repeatedly (n_qubits : nat) (unit : QuantumCircuit) (k : nat) :
  Nat.iter k (fun circuit => extend circuit unit) (Circuit n_qubits [])
  = concatenations n_qubits unit k.
Proof.
  unfold concatenations. induction k as [|k IH]; [reflexivity|].
  simpl. rewrite IH, repetitions_S. reflexivity.
Qed.


(** What a fixed-interval call returns once the step computation has
    returned. *)
Lemma fixed_interval_accepted (n_qubits : nat) (unit : QuantumCircuit)
  (time_step evolution_time : float) (n sgn : Z) :
  Binary64.get_evolution_trotter_step time_step evolution_time
  = inr (n, sgn) ->
  ('(n_repition, sgn) ← Binary64.get_evolution_trotter_step
                          time_step evolution_time;
   let circuit :=
     Nat.iter (Z.to_nat n_repition)
       (fun circuit => extend circuit unit) (Circuit n_qubits []) in
   mret (if (sgn >? 0)%Z then circuit else inverse_circuit circuit))
  = inr (if (sgn >? 0)%Z
         then concatenations n_qubits unit (Z.to_nat n)
         else inverse_circuit (concatenations n_qubits unit (Z.to_nat n))).
Proof.
  intros ->. cbn [mbind Result_bind]. cbv zeta.
  by rewrite extend_repeatedly.
Qed.

(** C3: a fixed-interval factory called with a float multiple of its time
    step.  With the double 0.7 as time step the call at [3 * 0.7] raises the
    ValueError, for both factories, where C3 has three concatenations of
    the unit circuit; with time step 1 the call at
    [36893489] returns 36893488 concatenations. *)
Theorem fixed_interval_float_multiple
  (encoded_problem : QubitHamiltonianInput) (qubit_count : nat)
  (trotter_order : Z) (unit : QuantumCircuit) :
  (let time_step := 0x1.6666666666666p-1%float in
   Binary64.FixedIntervalTrotterTimeEvolutionCircuitFactory.__call__
     {| Binary64.FixedIntervalTrotterTimeEvolutionCircuitFactory.encoded_problem :=
          encoded_problem;
        Binary64.FixedIntervalTrotterTimeEvolutionCircuitFactory.qubit_count :=
          qubit_count;
        Binary64.FixedIntervalTrotterTimeEvolutionCircuitFactory.time_step :=
          time_step;
        Binary64.FixedIntervalTrotterTimeEvolutionCircuitFactory.trotter_order :=
          trotter_order;
        Binary64.FixedIntervalTrotterTimeEvolutionCircuitFactory._single_time_step_circuit :=
          unit |}
     (3 * time_step)%float
   = inl (ValueError msg_not_multiple)
   /\ Binary64.FixedIntervalTrotterControlledTimeEvolutionCircuitFactory.__call__
        {| Binary64.FixedIntervalTrotterControlledTimeEvolutionCircuitFactory.encoded_problem :=
             encoded_problem;
           Binary64.FixedIntervalTrotterControlledTimeEvolutionCircuitFactory.qubit_count :=
             qubit_count;
           Binary64.FixedIntervalTrotterControlledTimeEvolutionCircuitFactory.time_step :=
             time_step;
           Binary64.FixedIntervalTrotterControlledTimeEvolutionCircuitFactory.trotter_order :=
             trotter_order;
           Binary64.FixedIntervalTrotterControlledTimeEvolutionCircuitFactory._single_time_step_circuit :=
             unit |}
        (3 * time_step)%float
      = inl (ValueError msg_not_multiple))
  /\ Binary64.FixedIntervalTrotterTimeEvolutionCircuitFactory.__call__
       {| Binary64.FixedIntervalTrotterTimeEvolutionCircuitFactory.encoded_problem :=
            encoded_problem;
          Binary64.FixedIntervalTrotterTimeEvolutionCircuitFactory.qubit_count :=
            qubit_count;
          Binary64.FixedIntervalTrotterTimeEvolutionCircuitFactory.time_step :=
            1%float;
          Binary64.FixedIntervalTrotterTimeEvolutionCircuitFactory.trotter_order :=
            trotter_order;
          Binary64.FixedIntervalTrotterTimeEvolutionCircuitFactory._single_time_step_circuit :=
            unit |}
       (36893489 * 1)%float
     = inr (concatenations qubit_count unit (Z.to_nat 36893488)).
Proof.
  assert (Hreject :
            Binary64.get_evolution_trotter_step 0x1.6666666666666p-1
              (3 * 0x1.6666666666666p-1)
            = inl (ValueError msg_not_multiple))
    by (vm_compute; reflexivity).
  assert (Hshort :
            Binary64.get_evolution_trotter_step 1 (36893489 * 1)
            = inr (36893488%Z, 1%Z))
    by (vm_compute; reflexivity).
  split; [split|].
  - unfold Binary64.FixedIntervalTrotterTimeEvolutionCircuitFactory.__call__.
    cbv zeta.
    cbn [Binary64.FixedIntervalTrotterTimeEvolutionCircuitFactory.time_step].
    by rewrite Hreject.
  - unfold Binary64.FixedIntervalTrotterControlledTimeEvolutionCircuitFactory.__call__.
    cbv zeta.
    cbn [Binary64.FixedIntervalTrotterControlledTimeEvolutionCircuitFactory.time_step].
    by rewrite Hreject.
  - exact (fixed_interval_accepted qubit_count unit 1 (36893489 * 1)
             36893488 1 Hshort).
Qed.

Section FactoryCalls.
Context `{SuzukiRoutine}.

(** C7.  Both top-level factories are constructed only when exactly one of
    [time_step] and [n_trotter] is supplied; with both or neither the
    constructor raises the assertion and leaves the world as it found it: no
    template has been synthesized. *)
Theorem exclusive_step_policy
  (encoded_problem : QubitHamiltonianInput)
  (time_step : option Q) (n_trotter : option Z) (trotter_order : Z)
  (w : World) :
  (~ exactly_one_supplied time_step n_trotter ->
   TrotterTimeEvolutionCircuitFactory.__init__
     encoded_problem time_step n_trotter trotter_order w
   = (inl (AssertionError msg_exclusive), w)
   /\ TrotterControlledTimeEvolutionCircuitFactory.__init__
        encoded_problem time_step n_trotter trotter_order w
      = (inl (AssertionError msg_exclusive), w))
  /\ (forall f w',
         TrotterTimeEvolutionCircuitFactory.__init__
           encoded_problem time_step n_trotter trotter_order w = (inr f, w') ->
         exactly_one_supplied time_step n_trotter)
  /\ (forall f w',
         TrotterControlledTimeEvolutionCircuitFactory.__init__
           encoded_problem time_step n_trotter trotter_order w = (inr f, w') ->
         exactly_one_supplied time_step n_trotter).
Proof.
  unfold exactly_one_supplied.
  destruct time_step as [time_step|], n_trotter as [n_trotter|].
  - split; [intros _; split; reflexivity|].
    split; intros f w' Hinit; discriminate.
  - split; [intros Hno; exfalso; apply Hno; left; eauto|].
    split; intros f w' _; left; eauto.
  - split; [intros Hno; exfalso; apply Hno; right; eauto|].
    split; intros f w' _; right; eauto.
  - split; [intros _; split; reflexivity|].
    split; intros f w' Hinit; discriminate.
Qed.

End FactoryCalls.

(** ** The cache of the partial factory *)

(** ** The cache of the partial factory *)




Section Cache.
Context `{SuzukiRoutine} `{LocalHamiltonian} `{InheritedEq}.
Context (tuple_hash : list Z -> Z).

Abbreviation get_partial := (get_partial_time_evolution_circuit tuple_hash).
Abbreviation hash_of self idx0 idx1 :=
  (tuple_hash [__hash__ self; idx0; idx1]).
Abbreviation key_of self idx0 idx1 := (self_id self, idx0, idx1).



















End Cache.

(** * Witnesses, counterexamples and examples *)

Section Examples.
#[local] Existing Instance symmetric_splitting.
#[local] Existing Instance whole_hamiltonian.
#[local] Existing Instance eq_raises.

Lemma controlled_template_gates_witness :
  (1 <= 2)%Z /\
  exists terms,
    _get_trotter_pauli_coefficient_pairs
      (get_shifted_hamiltonian sample_hamiltonian 1) 2 = inr terms
    /\ get_trotter_controlled_time_evolution_operator sample_hamiltonian 2 2 2
       = inr (ParametricCircuit 3
                (repetitions 2 (flat_map (controlled_term_gates 2) terms))).
Proof.
  split; [lia|]. eexists. split; [reflexivity|].
  refine (proj1 (controlled_template_gates sample_hamiltonian 2 2 2 _ _ _));
    [lia | reflexivity].
Defined.

Lemma plain_template_gates_witness :
  (1 <= 2)%Z /\
  exists terms,
    _get_trotter_pauli_coefficient_pairs sample_hamiltonian 2 = inr terms
    /\ get_trotter_time_evolution_operator sample_hamiltonian 2 2 2
       = inr (ParametricCircuit 2
                (repetitions 2 (flat_map (plain_term_gates 2) terms))).
Proof.
  split; [lia|]. eexists. split; [reflexivity|].
  apply plain_template_gates; [lia | reflexivity].
Defined.

Lemma exclusive_step_policy_witness :
  ~ exactly_one_supplied (Some (1 # 4)) (Some 1%Z) /\
  TrotterTimeEvolutionCircuitFactory.__init__
    sample_problem (Some (1 # 4)) (Some 1%Z) 1 initial_world
  = (inl (AssertionError msg_exclusive), initial_world).
Proof.
  assert (Hboth : ~ exactly_one_supplied (Some (1 # 4)) (Some 1%Z)).
  { intros [[_ Hn] | [Ht _]]; discriminate. }
  split; [exact Hboth|].
  apply (proj1 (exclusive_step_policy sample_problem (Some (1 # 4))
                  (Some 1%Z) 1 initial_world)).
  exact Hboth.
Defined.

(** C9 as stated fails: an inner circuit that has a Hadamard gate on qubit 0
    itself gives three of them, and an inner circuit with an S-dagger gate
    gives one although [test_real] is true. *)
Lemma hadamard_count_counterexample :
  count_gates (is_H_on 0)
    (gates (construct_hadamard_circuit (Circuit 1 [Gate.H 0]) true None None))
  = 3%nat
  /\ count_gates is_Sdag
       (gates (construct_hadamard_circuit
                 (Circuit 1 [Gate.Sdag 0]) true None None))
     = 1%nat.
Proof. split; reflexivity. Qed.

(** The controlled template of [1.0 * I] on one qubit, bound at [t = 2.0], is
    one RZ rotation of the control qubit by -2. *)
Example controlled_identity_scenario :
  (template ← get_trotter_controlled_time_evolution_operator
                [(PAULI_IDENTITY, Complex 1 0)] 1 1 1;
   mret (bind_parameters template 2))
  = inr (Circuit 2 [Gate.RZ 0 (-2)]).
Proof. reflexivity. Qed.

Lemma selector_by_order_witness :
  rejects_depth_zero /\
  _get_trotter_pauli_coefficient_pairs sample_hamiltonian 0
  = inl (ValueError msg_invalid_order).
Proof.
  assert (Hlibrary : rejects_depth_zero) by (intros op param; reflexivity).
  split; [exact Hlibrary|].
  by apply (selector_by_order sample_hamiltonian 0 Hlibrary).
Defined.

(** C6 as stated fails.  An evolution time of zero is accepted with sign 0;
    the accepted evolution time [36893489] at time step 1 has the repetition
    count 36893488, a whole time step away; the accepted evolution time
    [72.000720010000506] at time step 1 has the repetition count 72, more
    than 1e-12 away. *)
Lemma step_result_counterexample :
  Binary64.get_evolution_trotter_step 1 0 = inr (0%Z, 0%Z)
  /\ Binary64.get_evolution_trotter_step 1 36893489 = inr (36893488%Z, 1%Z)
  /\ ~ Qabs (inject_Z 36893488 * double 1 * inject_Z 1 - double 36893489)
       <= 1 # 10 ^ 12
  /\ Binary64.get_evolution_trotter_step 1 0x1.2000bcbf0d9ebp+6
     = inr (72%Z, 1%Z)
  /\ ~ Qabs (inject_Z 72 * double 1 * inject_Z 1 - double 0x1.2000bcbf0d9ebp+6)
       <= 1 # 10 ^ 12.
Proof.
  split; [vm_compute; reflexivity|]. split; [vm_compute; reflexivity|].
  split; [intros Hle; vm_compute in Hle; by apply Hle|].
  split; [vm_compute; reflexivity|].
  intros Hle. vm_compute in Hle. by apply Hle.
Qed.

Lemma step_count_and_sign_witness :
  Binary64.get_evolution_trotter_step 0.25 (-0.75) = inr (3%Z, (-1)%Z)
  /\ (0 <? 0.25)%float = true
  /\ (0 <= 3)%Z
  /\ (((-1)%Z = 1%Z /\ (0 <? -0.75)%float = true)
      \/ ((-1)%Z = 0%Z /\ (-0.75 =? 0)%float = true)
      \/ ((-1)%Z = (-1)%Z /\ (-0.75 <? 0)%float = true)).
Proof.
  assert (Hcall : Binary64.get_evolution_trotter_step 0.25 (-0.75)
                  = inr (3%Z, (-1)%Z)) by (vm_compute; reflexivity).
  split; [exact Hcall|].
  exact (step_count_and_sign 0.25 (-0.75) 3 (-1) Hcall).
Defined.


(** Two factories with equal [n_trotter], under an [__eq__] that raises:
    once the first has a template cached, the call of the second with the
    same indices raises out of the lookup and changes nothing, and the
    first still gets its object. *)
Example second_factory_raises :
  exists f g w r w1,
    (f ← Partial.__init__ coupling_problem 2;
     g ← Partial.__init__ coupling_problem 2;
     mret (f, g)) initial_world = (inr (f, g), w)
    /\ get_partial_time_evolution_circuit first_member_hash f 0 2 w
       = (inr r, w1)
    /\ get_partial_time_evolution_circuit first_member_hash g 0 2 w1
       = (inl (AttributeError "__eq__"), w1)
    /\ get_partial_time_evolution_circuit first_member_hash f 0 2 w1
       = (inr r, w1).
Proof.
  eexists _, _, _, _, _. split; [reflexivity|].
  split; [vm_compute; reflexivity|]. split; vm_compute; reflexivity.
Qed.

(** A restriction that raises: nothing is cached, and the call raises
    again. *)
Example local_input_raises :
  get_partial_time_evolution_circuit first_member_hash
    {| self_id := 0; encoded_problem := sample_problem; n_trotter := 2 |}
    0 2 initial_world
  = (inl (ValueError "identity term"), initial_world).
Proof. vm_compute. reflexivity. Qed.

(** Ordinary doubles: with the double 0.1 as time step, the evolution times
    0.5, 1000.0, 5000.0 and 10000.1 are accepted, with 5, 10000, 50000 and
    100001 repetitions. *)
Example ordinary_doubles_accepted :
  let time_step := 0x1.999999999999ap-4%float in
  Binary64.get_evolution_trotter_step time_step 0.5 = inr (5%Z, 1%Z)
  /\ Binary64.get_evolution_trotter_step time_step 1000 = inr (10000%Z, 1%Z)
  /\ Binary64.get_evolution_trotter_step time_step 5000 = inr (50000%Z, 1%Z)
  /\ Binary64.get_evolution_trotter_step time_step 0x1.3880ccccccccdp+13
     = inr (100001%Z, 1%Z).
Proof. cbv zeta. repeat split; vm_compute; reflexivity. Qed.

End Examples.


(** * Further properties *)

(** ** The step computation *)

Lemma Qabs_opp_eq (x : Q) : Qabs (- x) = Qabs x.
Proof. destruct x as [n d]. unfold Qabs, Qopp. simpl. by rewrite Z.abs_opp. Qed.

Lemma Qnum_opp (x : Q) : Qnum (- x) = (- Qnum x)%Z.
Proof. by destruct x. Qed.

(** Negating the evolution time keeps the repetition count (or the error)
    and negates the sign. *)
Lemma step_of_negated_time (time_step evolution_time : Q) :
  get_evolution_trotter_step time_step (- evolution_time)
  = match get_evolution_trotter_step time_step evolution_time with
    | inl e => inl e
    | inr (n, sgn) => inr (n, (- sgn)%Z)
    end.
Proof.
  unfold get_evolution_trotter_step, np.abs, np.sign.
  rewrite Qabs_opp_eq, !int_inject_Z, Qnum_opp, Z.sgn_opp.
  destruct (negb (Qgtb time_step 0)); [reflexivity|]. cbv zeta.
  destruct (negb (np.isclose _ _)); reflexivity.
Qed.

(** ** The two synthesizers *)

Lemma length_repetitions {A} (k : nat) (l : list A) :
  length (repetitions k l) = (k * length l)%nat.
Proof.
  induction k as [|k IH]; [reflexivity|].
  rewrite repetitions_S, length_app, IH. lia.
Qed.

Lemma length_plain_gates (n_trotter : Z) (terms : list (PauliLabel * complex)) :
  length (flat_map (plain_term_gates n_trotter) terms) = rotation_terms terms.
Proof.
  unfold rotation_terms. induction terms as [|[op c] terms IH]; [reflexivity|].
  cbn [flat_map]. rewrite length_app, IH, filter_cons.
  unfold plain_term_gates. simpl.
  destruct (decide (op = PAULI_IDENTITY)); by repeat case_decide.
Qed.

Lemma length_controlled_gates (n_trotter : Z) (terms : list (PauliLabel * complex)) :
  length (flat_map (controlled_term_gates n_trotter) terms)
  = (identity_terms terms + 2 * rotation_terms terms)%nat.
Proof.
  unfold identity_terms, rotation_terms.
  induction terms as [|[op c] terms IH]; [reflexivity|].
  cbn [flat_map]. rewrite length_app, IH, !filter_cons.
  unfold controlled_term_gates. simpl.
  destruct (decide (op = PAULI_IDENTITY)); repeat case_decide;
    try done; simpl; lia.
Qed.

Section Templates.
Context `{SuzukiRoutine}.

(** The plain template, from the terms the selector returns. *)
Lemma plain_template_of_terms (hamiltonian : Operator)
  (n_state_qubits : nat) (n_trotter trotter_order : Z)
  (terms : list (PauliLabel * complex)) :
  _get_trotter_pauli_coefficient_pairs hamiltonian trotter_order = inr terms ->
  get_trotter_time_evolution_operator
    hamiltonian n_state_qubits n_trotter trotter_order
  = inr (ParametricCircuit n_state_qubits
           (repetitions (Z.to_nat n_trotter)
              (flat_map (plain_term_gates n_trotter) terms))).
Proof.
  intros Hterms. unfold get_trotter_time_evolution_operator. rewrite Hterms.
  simpl. unfold mret, Result_ret. f_equal.
  rewrite (trotter_passes _
             (flat_map (plain_term_gates n_trotter) terms)); [done|].
  intros circuit.
  apply (terms_pass _add_single_term_for_trotter_time_evolution
           plain_term_gates).
  intros. apply plain_term_step.
Qed.

(** The controlled template, from the terms the selector returns. *)
Lemma controlled_template_of_terms (hamiltonian : Operator)
  (n_state_qubits : nat) (n_trotter trotter_order : Z)
  (terms : list (PauliLabel * complex)) :
  _get_trotter_pauli_coefficient_pairs
    (get_shifted_hamiltonian hamiltonian 1) trotter_order = inr terms ->
  get_trotter_controlled_time_evolution_operator
    hamiltonian n_state_qubits n_trotter trotter_order
  = inr (ParametricCircuit (n_state_qubits + 1)
           (repetitions (Z.to_nat n_trotter)
              (flat_map (controlled_term_gates n_trotter) terms))).
Proof.
  intros Hterms. unfold get_trotter_controlled_time_evolution_operator.
  cbv zeta. rewrite Hterms. simpl. unfold mret, Result_ret. f_equal.
  rewrite (trotter_passes _
             (flat_map (controlled_term_gates n_trotter) terms)); [done|].
  intros circuit.
  apply (terms_pass _add_single_term_for_controlled_time_evolution
           controlled_term_gates).
  intros. apply controlled_term_step.
Qed.

(** X3.  The plain template has [n_trotter] gates per decomposed term that
    is not the identity; the controlled template has, per Trotter step, one
    gate per identity term and two per other term of the decomposition of
    the shifted Hamiltonian.  A negative [n_trotter] counts as 0. *)
Theorem template_gate_counts (hamiltonian : Operator)
  (n_state_qubits : nat) (n_trotter trotter_order : Z) :
  (forall terms template,
      _get_trotter_pauli_coefficient_pairs hamiltonian trotter_order
      = inr terms ->
      get_trotter_time_evolution_operator
        hamiltonian n_state_qubits n_trotter trotter_order = inr template ->
      length (param_gates template)
      = (Z.to_nat n_trotter * rotation_terms terms)%nat)
  /\ (forall terms template,
         _get_trotter_pauli_coefficient_pairs
           (get_shifted_hamiltonian hamiltonian 1) trotter_order
         = inr terms ->
         get_trotter_controlled_time_evolution_operator
           hamiltonian n_state_qubits n_trotter trotter_order = inr template ->
         length (param_gates template)
         = (Z.to_nat n_trotter
            * (identity_terms terms + 2 * rotation_terms terms))%nat).
Proof.
  split; intros terms template Hterms Htemplate.
  - rewrite (plain_template_of_terms _ _ _ _ _ Hterms) in Htemplate.
    injection Htemplate as <-. simpl.
    by rewrite length_repetitions, length_plain_gates.
  - rewrite (controlled_template_of_terms _ _ _ _ _ Hterms) in Htemplate.
    injection Htemplate as <-. simpl.
    by rewrite length_repetitions, length_controlled_gates.
Qed.

(** X4.  With [n_trotter <= 0] a synthesizer that returns at all returns
    the empty template, on [n_state_qubits] qubits for the plain one and
    [n_state_qubits + 1] for the controlled one, whatever the Hamiltonian:
    no coefficient is divided by [n_trotter]. *)
Theorem no_step_no_gate (hamiltonian : Operator)
  (n_state_qubits : nat) (n_trotter trotter_order : Z) :
  (n_trotter <= 0)%Z ->
  (forall template,
      get_trotter_time_evolution_operator
        hamiltonian n_state_qubits n_trotter trotter_order = inr template ->
      template = ParametricCircuit n_state_qubits [])
  /\ (forall template,
         get_trotter_controlled_time_evolution_operator
           hamiltonian n_state_qubits n_trotter trotter_order = inr template ->
         template = ParametricCircuit (n_state_qubits + 1) []).
Proof.
  intros Hn. assert (Hk : Z.to_nat n_trotter = 0%nat) by lia.
  split; intros template Htemplate.
  - destruct (_get_trotter_pauli_coefficient_pairs hamiltonian trotter_order)
      as [e|terms] eqn:Hterms.
    + unfold get_trotter_time_evolution_operator in Htemplate.
      rewrite Hterms in Htemplate. discriminate.
    + rewrite (plain_template_of_terms _ _ _ _ _ Hterms), Hk in Htemplate.
      by injection Htemplate as <-.
  - destruct (_get_trotter_pauli_coefficient_pairs
                (get_shifted_hamiltonian hamiltonian 1) trotter_order)
      as [e|terms] eqn:Hterms.
    + unfold get_trotter_controlled_time_evolution_operator in Htemplate.
      cbv zeta in Htemplate. rewrite Hterms in Htemplate. discriminate.
    + rewrite (controlled_template_of_terms _ _ _ _ _ Hterms), Hk in Htemplate.
      by injection Htemplate as <-.
Qed.

(** An odd order other than 1 stops both synthesizers with the assertion,
    before the Hamiltonian or the step count is looked at. *)
Lemma odd_order_rejected (hamiltonian : Operator)
  (n_state_qubits : nat) (n_trotter trotter_order : Z) :
  trotter_order <> 1%Z -> (trotter_order mod 2 <> 0)%Z ->
  get_trotter_time_evolution_operator
    hamiltonian n_state_qubits n_trotter trotter_order
  = inl (AssertionError msg_trotter_order)
  /\ get_trotter_controlled_time_evolution_operator
       hamiltonian n_state_qubits n_trotter trotter_order
     = inl (AssertionError msg_trotter_order).
Proof.
  intros Hne Hodd.
  assert (Hsel : forall h,
             _get_trotter_pauli_coefficient_pairs h trotter_order
             = inl (AssertionError msg_trotter_order)).
  { intros h. unfold _get_trotter_pauli_coefficient_pairs.
    apply Z.eqb_neq in Hne. rewrite Hne. apply Z.eqb_neq in Hodd.
    by rewrite Hodd. }
  unfold get_trotter_time_evolution_operator,
    get_trotter_controlled_time_evolution_operator.
  cbv zeta. by rewrite !Hsel.
Qed.

End Templates.

Lemma Forall_repetitions {A} (P : A -> Prop) (k : nat) (l : list A) :
  Forall P l -> Forall P (repetitions k l).
Proof.
  intros Hl. induction k as [|k IH]; [constructor|].
  rewrite repetitions_S. by apply Forall_app.
Qed.

Lemma elem_of_label_lists (op : PauliLabel) (q : nat) (p : SinglePauli.t) :
  (q, p) ∈ zip (index_and_pauli_id_list op).1 (index_and_pauli_id_list op).2
  <-> (q, p) ∈ op.
Proof.
  unfold index_and_pauli_id_list. simpl. by rewrite zip_fst_snd, elem_of_elements.
Qed.

Lemma controlled_gates_diagonal (n_trotter : Z)
  (terms : list (PauliLabel * complex)) :
  Forall (fun term => above 1 term.1) terms ->
  Forall control_diagonal (flat_map (controlled_term_gates n_trotter) terms).
Proof.
  induction 1 as [|[op c] terms Hop _ IH]; [constructor|].
  cbn [flat_map]. apply Forall_app. split; [|exact IH].
  unfold controlled_term_gates. cbn [fst snd] in *.
  destruct (decide (op = PAULI_IDENTITY)).
  - by repeat constructor.
  - cbv zeta. apply Forall_cons. split; [|apply Forall_cons; split].
    + intros p. rewrite elem_of_label_lists. intros Hin.
      apply Hop in Hin. lia.
    + intros p. rewrite elem_of_label_lists, elem_of_union, elem_of_singleton.
      intros [Hin | [= ->]]; [|done]. apply Hop in Hin. lia.
    + by apply Forall_nil.
Qed.

Lemma plain_gates_real_parts (n_trotter : Z) (h1 h2 : Operator) :
  same_real_parts h1 h2 ->
  flat_map (plain_term_gates n_trotter) h1
  = flat_map (plain_term_gates n_trotter) h2.
Proof.
  induction 1 as [|[op1 c1] [op2 c2] h1 h2 [Hop Hre] _ IH]; [reflexivity|].
  cbn [flat_map]. rewrite IH. f_equal. unfold plain_term_gates.
  simpl in *. by rewrite Hop, Hre.
Qed.

Section ControlledTemplate.
Context `{SuzukiRoutine}.

(** X5.  The controlled template leaves the control qubit diagonal: each
    of its gates is an RZ on qubit 0, or a Pauli rotation that acts on
    qubit 0 with Z or not at all.  It holds at order 1, and at every order
    whose decomposed terms stay off qubit 0. *)
Theorem control_qubit_diagonal (hamiltonian : Operator)
  (n_state_qubits : nat) (n_trotter trotter_order : Z) template :
  get_trotter_controlled_time_evolution_operator
    hamiltonian n_state_qubits n_trotter trotter_order = inr template ->
  trotter_order = 1%Z
  \/ (exists terms,
         _get_trotter_pauli_coefficient_pairs
           (get_shifted_hamiltonian hamiltonian 1) trotter_order = inr terms
         /\ Forall (fun term => above 1 term.1) terms) ->
  Forall control_diagonal (param_gates template).
Proof.
  intros Htemplate Horder.
  assert (Hterms : exists terms,
             _get_trotter_pauli_coefficient_pairs
               (get_shifted_hamiltonian hamiltonian 1) trotter_order
             = inr terms
             /\ Forall (fun term => above 1 term.1) terms).
  { destruct Horder as [-> | Hterms]; [|exact Hterms].
    exists (get_shifted_hamiltonian hamiltonian 1).
    split; [reflexivity | apply get_shifted_hamiltonian_above]. }
  destruct Hterms as (terms & Hterms & Habove).
  rewrite (controlled_template_of_terms _ _ _ _ _ Hterms) in Htemplate.
  injection Htemplate as <-. simpl.
  by apply Forall_repetitions, controlled_gates_diagonal.
Qed.

(** X6.  Only the real parts of the coefficients reach the plain template:
    at order 1, two Hamiltonians with the same labels in the same order and
    the same real parts give the same template (or the same error). *)
Theorem plain_template_real_parts (h1 h2 : Operator)
  (n_state_qubits : nat) (n_trotter : Z) :
  same_real_parts h1 h2 ->
  get_trotter_time_evolution_operator h1 n_state_qubits n_trotter 1
  = get_trotter_time_evolution_operator h2 n_state_qubits n_trotter 1.
Proof.
  intros Hsame.
  rewrite (plain_template_of_terms h1 _ _ 1 h1 eq_refl),
    (plain_template_of_terms h2 _ _ 1 h2 eq_refl).
  by rewrite (plain_gates_real_parts _ _ _ Hsame).
Qed.

End ControlledTemplate.

(** ** The operator shifter *)

Lemma shift_label_compose (a b : nat) (op : PauliLabel) :
  shift_label b (shift_label a op) = shift_label (a + b) op.
Proof.
  apply set_eq. intros [q p]. unfold shift_label. rewrite !elem_of_map.
  split.
  - intros ([q1 p1] & [= -> ->] & Hin). apply elem_of_map in Hin.
    destruct Hin as ([q0 p0] & [= -> ->] & Hin).
    exists (q0, p0). split; [f_equal; lia | done].
  - intros ([q0 p0] & [= -> ->] & Hin).
    exists ((q0 + a)%nat, p0). split; [f_equal; lia|].
    apply elem_of_map. by exists (q0, p0).
Qed.

Lemma shift_label_0 (op : PauliLabel) : shift_label 0 op = op.
Proof.
  apply set_eq. intros [q p]. unfold shift_label. rewrite elem_of_map. split.
  - intros ([q0 p0] & [= -> ->] & Hin). by rewrite Nat.add_0_r.
  - intros Hin. exists (q, p). by rewrite Nat.add_0_r.
Qed.

Lemma shifted_items_keys (shift : nat) (h : Operator) :
  (map (fun term => (shift_label shift term.1, term.2)) h).*1
  = shift_label shift <$> h.*1.
Proof. induction h as [|[op c] h IH]; [done|]. cbn. by rewrite <- IH. Qed.

Lemma shifted_items_nonzero (shift : nat) (h : Operator) :
  Forall (fun term => complex_is_zero term.2 = false) h ->
  Forall (fun term => complex_is_zero term.2 = false)
    (map (fun term => (shift_label shift term.1, term.2)) h).
Proof. induction 1; constructor; auto. Qed.

(** X7.  On a Hamiltonian with distinct labels and no zero coefficient,
    [get_shifted_hamiltonian] by 0 changes nothing and two shifts compose
    to the shift by the sum. *)
Theorem shifts_compose (hamiltonian : Operator) (a b : nat) :
  NoDup hamiltonian.*1 ->
  Forall (fun term => complex_is_zero term.2 = false) hamiltonian ->
  get_shifted_hamiltonian hamiltonian 0 = hamiltonian
  /\ get_shifted_hamiltonian (get_shifted_hamiltonian hamiltonian a) b
     = get_shifted_hamiltonian hamiltonian (a + b).
Proof.
  intros Hdistinct Hnonzero. split.
  - rewrite get_shifted_hamiltonian_items by done.
    induction hamiltonian as [|[op c] h IH]; [done|].
    cbn. rewrite shift_label_0. f_equal. apply IH.
    + by inversion Hdistinct.
    + by inversion Hnonzero.
  - rewrite (get_shifted_hamiltonian_items hamiltonian a) by done.
    rewrite get_shifted_hamiltonian_items.
    + rewrite (get_shifted_hamiltonian_items hamiltonian (a + b)) by done.
      rewrite map_map. apply map_ext. intros [op c]. simpl.
      by rewrite shift_label_compose.
    + rewrite shifted_items_keys.
      by apply (@NoDup_fmap_2 _ _ _ (shift_label_inj a)).
    + by apply shifted_items_nonzero.
Qed.

(** X8.  [get_shifted_hamiltonian] invents no label: every term of the
    result carries the shift of the label of a term of the input, for every
    input (repeated labels and zero coefficients included). *)
Theorem shifted_labels_from_input (hamiltonian : Operator) (shift : nat) :
  Forall (fun term =>
            exists term0, term0 ∈ hamiltonian
                          /\ term.1 = shift_label shift term0.1)
    (get_shifted_hamiltonian hamiltonian shift).
Proof.
  unfold get_shifted_hamiltonian.
  match goal with |- Forall ?P (fold_left ?f _ _) =>
    set (body := f); set (from_input := P) end.
  assert (Hgen : forall (rest acc : Operator),
             (forall term0, term0 ∈ rest -> term0 ∈ hamiltonian) ->
             Forall from_input acc ->
             Forall from_input (fold_left body rest acc)).
  { induction rest as [|[op coef] rest IH]; intros acc Hsub Hacc; [done|].
    cbn [fold_left]. apply IH.
    - intros term0 Hin. apply Hsub. by right.
    - assert (Hlabel : exists term0, term0 ∈ hamiltonian
                         /\ shift_label shift op = shift_label shift term0.1).
      { exists (op, coef). split; [apply Hsub; left | done]. }
      subst body. cbv beta iota.
      destruct (decide (op = PAULI_IDENTITY)) as [->|Hne].
      + apply (add_term_keys
                 (fun label => exists term0, term0 ∈ hamiltonian
                                 /\ label = shift_label shift term0.1));
          [exact Hacc|].
        assert (Hid : shift_label shift PAULI_IDENTITY = PAULI_IDENTITY)
          by apply set_map_empty.
        by rewrite <- Hid.
      + pose proof (shifted_label_eq op shift) as Heq.
        unfold index_and_pauli_id_list in *. simpl in Heq. rewrite Heq.
        by apply (add_term_keys
                    (fun label => exists term0, term0 ∈ hamiltonian
                                    /\ label = shift_label shift term0.1)). }
  apply Hgen; [done | constructor].
Qed.

(** ** Binding and inversion *)

Lemma Qopp_involutive_eq (x : Q) : - - x = x.
Proof. destruct x as [n d]. unfold Qopp. simpl. by rewrite Z.opp_involutive. Qed.

Lemma Qmult_opp_r_eq (x y : Q) : x * - y = - (x * y).
Proof.
  destruct x as [a b], y as [c d]. unfold Qmult, Qopp. simpl.
  by rewrite Z.mul_opp_r.
Qed.

Lemma inverse_gate_involutive (g : Gate.t) : inverse_gate (inverse_gate g) = g.
Proof. destruct g; simpl; by rewrite ?Qopp_involutive_eq. Qed.

Lemma inverse_circuit_involutive (circuit : QuantumCircuit) :
  inverse_circuit (inverse_circuit circuit) = circuit.
Proof.
  destruct circuit as [n gs]. unfold inverse_circuit. simpl. f_equal.
  rewrite <- map_rev, rev_involutive, map_map.
  rewrite <- (map_id gs) at 2. apply map_ext, inverse_gate_involutive.
Qed.

Lemma bind_gate_negated (value : Q) (g : ParametricGate) :
  bind_gate (- value) g = inverse_gate (bind_gate value g).
Proof. destruct g; simpl; by rewrite Qmult_opp_r_eq. Qed.

Lemma bind_parameters_negated template (value : Q) :
  inverse_circuit (bind_parameters template value)
  = Circuit (param_qubit_count template)
      (rev (gates (bind_parameters template (- value)))).
Proof.
  unfold inverse_circuit, bind_parameters. simpl. f_equal.
  rewrite map_rev, map_map. f_equal. apply map_ext.
  intros g. by rewrite bind_gate_negated.
Qed.

(** X9.  For both fixed-step factories, the inverse of the circuit returned
    at time [t] has the qubits of that circuit and the gates of the circuit
    returned at [-t], in reverse order. *)
Theorem fixed_step_inverse (evolution_time : Q) :
  (forall f : FixedStepTrotterTimeEvolutionCircuitFactory.t,
      let call := FixedStepTrotterTimeEvolutionCircuitFactory.__call__ f in
      inverse_circuit (call evolution_time)
      = Circuit (qubit_count (call evolution_time))
          (rev (gates (call (- evolution_time)))))
  /\ (forall f : FixedStepTrotterControlledTimeEvolutionCircuitFactory.t,
         let call :=
           FixedStepTrotterControlledTimeEvolutionCircuitFactory.__call__ f in
         inverse_circuit (call evolution_time)
         = Circuit (qubit_count (call evolution_time))
             (rev (gates (call (- evolution_time))))).
Proof. split; intros f; apply bind_parameters_negated. Qed.

(** ** Fixed-interval factories *)

Lemma step_of_zero_sign (time_step evolution_time : Q) (n : Z) :
  get_evolution_trotter_step time_step evolution_time = inr (n, 0%Z) ->
  n = 0%Z.
Proof.
  intros Hget.
  destruct (Qlt_le_dec 0 time_step) as [Hts|Hts].
  - assert (Hz : evolution_time == inject_Z 0 * time_step).
    { rewrite get_evolution_trotter_step_unfold in Hget by exact Hts.
      cbv zeta in Hget. destruct (np.isclose _ _); [|discriminate].
      injection Hget as _ Hsgn. destruct evolution_time as [a d].
      unfold Qeq. simpl in *. lia. }
    rewrite (get_evolution_trotter_step_multiple _ _ 0 Hts Hz) in Hget.
    by injection Hget as <-.
  - unfold get_evolution_trotter_step in Hget.
    assert (Hgt : Qgtb time_step 0 = false).
    { apply not_true_iff_false. rewrite Qgtb_true. by apply Qle_not_lt. }
    rewrite Hgt in Hget. discriminate.
Qed.

Lemma interval_call_negated n_qubits unit time_step evolution_time :
  interval_call n_qubits unit time_step (- evolution_time)
  = match interval_call n_qubits unit time_step evolution_time with
    | inl e => inl e
    | inr circuit => inr (inverse_circuit circuit)
    end.
Proof.
  unfold interval_call. rewrite step_of_negated_time.
  destruct (get_evolution_trotter_step time_step evolution_time)
    as [e|[n sgn]] eqn:Hget; [reflexivity|].
  cbn. unfold mret, Result_ret. f_equal.
  destruct (Z.lt_trichotomy sgn 0) as [Hneg | [-> | Hpos]].
  - destruct (Z.gtb_spec sgn 0); [lia|].
    destruct (Z.gtb_spec (- sgn) 0); [|lia].
    by rewrite inverse_circuit_involutive.
  - rewrite (step_of_zero_sign _ _ _ Hget). reflexivity.
  - destruct (Z.gtb_spec sgn 0); [|lia].
    destruct (Z.gtb_spec (- sgn) 0); [lia|]. reflexivity.
Qed.

(** X10.  For both fixed-interval factories, the call at [-t] returns the
    inverse of the circuit returned at [t], and raises what the call at [t]
    raises. *)
Theorem fixed_interval_negated_time (evolution_time : Q) :
  (forall f : FixedIntervalTrotterTimeEvolutionCircuitFactory.t,
      FixedIntervalTrotterTimeEvolutionCircuitFactory.__call__
        f (- evolution_time)
      = match FixedIntervalTrotterTimeEvolutionCircuitFactory.__call__
                f evolution_time with
        | inl e => inl e
        | inr circuit => inr (inverse_circuit circuit)
        end)
  /\ (forall f : FixedIntervalTrotterControlledTimeEvolutionCircuitFactory.t,
         FixedIntervalTrotterControlledTimeEvolutionCircuitFactory.__call__
           f (- evolution_time)
         = match FixedIntervalTrotterControlledTimeEvolutionCircuitFactory.__call__
                   f evolution_time with
           | inl e => inl e
           | inr circuit => inr (inverse_circuit circuit)
           end).
Proof. split; intros f; apply interval_call_negated. Qed.


Lemma interval_call_bad_time_step n_qubits unit time_step evolution_time :
  time_step <= 0 ->
  interval_call n_qubits unit time_step evolution_time
  = inl (AssertionError msg_time_step).
Proof.
  intros Hts. unfold interval_call, get_evolution_trotter_step.
  assert (Hgt : Qgtb time_step 0 = false).
  { apply not_true_iff_false. rewrite Qgtb_true. by apply Qle_not_lt. }
  by rewrite Hgt.
Qed.

(** ** The fixed-interval policy in binary64 *)

Lemma abs_opp (x : float) : abs (- x) = abs x.
Proof.
  apply Prim2SF_inj. rewrite !abs_spec, opp_spec.
  by destruct (Prim2SF x).
Qed.

Lemma int_one : Binary64.int 1 = inr 1%Z.
Proof. reflexivity. Qed.

Lemma int_minus_one : Binary64.int (-1) = inr (-1)%Z.
Proof. reflexivity. Qed.

Lemma int_zero : Binary64.int 0 = inr 0%Z.
Proof. reflexivity. Qed.

(** [int(np.sign(x))] by the class of [x]. *)
Lemma int_sign_cases (x : float) :
  Binary64.int (Binary64.np.sign x)
  = match Prim2SF x with
    | S754_zero _ => inr 0%Z
    | S754_nan => inl (ValueError Binary64.msg_int_nan)
    | S754_infinity s | S754_finite s _ _ => inr (if s then -1 else 1)%Z
    end.
Proof.
  unfold Binary64.np.sign.
  rewrite !FloatAxioms.ltb_spec, FloatAxioms.eqb_spec, Prim2SF_zero.
  unfold SFltb, SFeqb, SFcompare.
  destruct (Prim2SF x) as [s|[]| |[] m e] eqn:Ex;
    rewrite ?int_one, ?int_minus_one, ?int_zero; try reflexivity.
  unfold Binary64.int. by rewrite Ex.
Qed.

Lemma int_sign_opp (x : float) :
  Binary64.int (Binary64.np.sign (- x))
  = match Binary64.int (Binary64.np.sign x) with
    | inl e => inl e
    | inr sgn => inr (- sgn)%Z
    end.
Proof.
  rewrite !int_sign_cases, opp_spec.
  by destruct (Prim2SF x) as [s|[]| |[] m e].
Qed.

(** Negating the evolution time keeps the repetition count, or the error,
    and negates the sign. *)
Lemma binary64_step_negated (time_step evolution_time : float) :
  Binary64.get_evolution_trotter_step time_step (- evolution_time)
  = match Binary64.get_evolution_trotter_step time_step evolution_time with
    | inl e => inl e
    | inr (n, sgn) => inr (n, (- sgn)%Z)
    end.
Proof.
  unfold Binary64.get_evolution_trotter_step, Binary64.np.abs.
  rewrite abs_opp, int_sign_opp.
  destruct (negb (0 <? time_step)%float); [reflexivity|]. cbv zeta.
  destruct (Binary64.int (abs evolution_time / time_step)) as [e|truncated];
    [reflexivity|]. cbn [mbind Result_bind].
  destruct (negb _); [reflexivity|].
  destruct (Binary64.int (Binary64.np.round _ 12)) as [e|n]; [reflexivity|].
  cbn [mbind Result_bind].
  by destruct (Binary64.int (Binary64.np.sign evolution_time)) as [e|sgn].
Qed.

(** A zero evolution time is zero steps. *)
Lemma binary64_step_zero (time_step evolution_time : float) (n : Z) :
  Binary64.get_evolution_trotter_step time_step evolution_time
  = inr (n, 0%Z) ->
  n = 0%Z.
Proof.
  unfold Binary64.get_evolution_trotter_step, raise.
  destruct (0 <? time_step)%float eqn:Hts; [|discriminate]. cbn [negb].
  cbv zeta. apply positive_float in Hts.
  set (step := (Binary64.np.abs evolution_time / time_step)%float).
  destruct (Binary64.int step) as [e|truncated]; [discriminate|].
  cbn [mbind Result_bind]. destruct (negb _); [discriminate|].
  destruct (Binary64.int (Binary64.np.round step 12)) as [e|n'] eqn:Hn;
    [discriminate|]. cbn [mbind Result_bind].
  rewrite int_sign_cases.
  destruct (Prim2SF evolution_time) as [s|[]| |[] m e] eqn:Ex;
    try discriminate.
  intros [= <-].
  assert (Hstep : exists s', Prim2SF step = S754_zero s').
  { unfold step, Binary64.np.abs. rewrite div_spec, abs_spec, Ex.
    destruct (Prim2SF time_step) as [sy|sy| |sy my ey]; simpl in *;
      try done; eauto. }
  destruct Hstep as [s' Hstep].
  assert (Hround : exists s'', Prim2SF (Binary64.np.round step 12)
                                = S754_zero s'').
  { unfold Binary64.np.round. cbv zeta.
    assert (Hmul : Prim2SF (step * Binary64.float_of_int (10 ^ 12))
                   = S754_zero (xorb s' false)).
    { by rewrite mul_spec, Hstep, scale12_value. }
    assert (Hrint : Prim2SF (Binary64.np.rint
                               (step * Binary64.float_of_int (10 ^ 12)))
                    = S754_zero (xorb s' false)).
    { unfold Binary64.np.rint. by rewrite Hmul. }
    rewrite div_spec, Hrint, scale12_value. simpl. eauto. }
  destruct Hround as [s'' Hround].
  unfold Binary64.int in Hn. rewrite Hround in Hn. by injection Hn as <-.
Qed.

Lemma binary64_interval_negated n_qubits unit time_step evolution_time :
  ('(n_repition, sgn) ← Binary64.get_evolution_trotter_step
                          time_step (- evolution_time);
   let circuit :=
     Nat.iter (Z.to_nat n_repition)
       (fun circuit => extend circuit unit) (Circuit n_qubits []) in
   mret (if (sgn >? 0)%Z then circuit else inverse_circuit circuit))
  = match ('(n_repition, sgn) ← Binary64.get_evolution_trotter_step
                                  time_step evolution_time;
           let circuit :=
             Nat.iter (Z.to_nat n_repition)
               (fun circuit => extend circuit unit) (Circuit n_qubits []) in
           mret (if (sgn >? 0)%Z then circuit else inverse_circuit circuit))
    with
    | inl e => inl e
    | inr circuit => inr (inverse_circuit circuit)
    end.
Proof.
  rewrite binary64_step_negated.
  destruct (Binary64.get_evolution_trotter_step time_step evolution_time)
    as [e|[n sgn]] eqn:Hget; [reflexivity|].
  cbn. unfold mret, Result_ret. f_equal.
  destruct (Z.lt_trichotomy sgn 0) as [Hneg | [-> | Hpos]].
  - destruct (Z.gtb_spec sgn 0); [lia|].
    destruct (Z.gtb_spec (- sgn) 0); [|lia].
    by rewrite inverse_circuit_involutive.
  - rewrite (binary64_step_zero _ _ _ Hget). reflexivity.
  - destruct (Z.gtb_spec sgn 0); [|lia].
    destruct (Z.gtb_spec (- sgn) 0); [lia|]. reflexivity.
Qed.

(** X20.  In binary64 too, for both fixed-interval factories and every
    evolution time, NaN and the infinities included: the call at [-t]
    returns the inverse of the circuit the call at [t] returns, and raises
    what the call at [t] raises. *)
Theorem binary64_negated_time (evolution_time : float) :
  (forall f : Binary64.FixedIntervalTrotterTimeEvolutionCircuitFactory.t,
      Binary64.FixedIntervalTrotterTimeEvolutionCircuitFactory.__call__
        f (- evolution_time)
      = match Binary64.FixedIntervalTrotterTimeEvolutionCircuitFactory.__call__
                f evolution_time with
        | inl e => inl e
        | inr circuit => inr (inverse_circuit circuit)
        end)
  /\ (forall f : Binary64.FixedIntervalTrotterControlledTimeEvolutionCircuitFactory.t,
         Binary64.FixedIntervalTrotterControlledTimeEvolutionCircuitFactory.__call__
           f (- evolution_time)
         = match Binary64.FixedIntervalTrotterControlledTimeEvolutionCircuitFactory.__call__
                   f evolution_time with
           | inl e => inl e
           | inr circuit => inr (inverse_circuit circuit)
           end).
Proof. split; intros f; apply binary64_interval_negated. Qed.

(** A finite positive float divided by itself is 1. *)
Lemma div_diag (x : float) (m : positive) (e : Z) :
  Prim2SF x = S754_finite false m e -> (x / x)%float = 1%float.
Proof.
  intros Ex. apply Prim2SF_inj. rewrite div_spec, Ex.
  unfold SF64div, SFdiv, SFdiv_core_binary.
  rewrite !Z.sub_diag.
  replace (Z.min (fexp prec emax 0) 0) with (-53)%Z by reflexivity.
  replace (0 - -53)%Z with 53%Z by reflexivity. cbv iota.
  assert (Hdiv : Z.div_eucl (Z.shiftl (Z.pos m) 53) (Z.pos m)
                 = ((2 ^ 53)%Z, 0%Z)).
  { destruct (Z.div_eucl (Z.shiftl (Z.pos m) 53) (Z.pos m)) as [q r]
      eqn:Ediv.
    pose proof (Z.div_eucl_eq (Z.shiftl (Z.pos m) 53) (Z.pos m)
                  ltac:(lia)) as Heq.
    pose proof (Z.mod_pos_bound (Z.shiftl (Z.pos m) 53) (Z.pos m)
                  ltac:(lia)) as Hbound.
    unfold Z.modulo in Hbound. rewrite Ediv in Heq, Hbound.
    rewrite Z.shiftl_mul_pow2 in Heq by lia.
    destruct (Z.div_mod_unique (Z.pos m) q (2 ^ 53) r 0) as [-> ->];
      [left; exact Hbound | lia | lia | reflexivity]. }
  rewrite Hdiv.
  assert (Hloc : new_location (Z.pos m) 0 = loc_Exact).
  { unfold new_location, new_location_even, new_location_odd.
    by destruct (Z.even (Z.pos m)). }
  rewrite Hloc. reflexivity.
Qed.

(** X21.  In binary64, a fixed-interval factory with a finite positive time
    step, called at its own time step, takes one step forwards: the step
    computation returns [(1, 1)] and the call returns the gates of the unit
    circuit, on the qubits of the factory (one more for the controlled
    factory). *)
Theorem binary64_single_step (time_step : float) :
  (0 <? time_step)%float = true -> (time_step <? infinity)%float = true ->
  Binary64.get_evolution_trotter_step time_step time_step = inr (1%Z, 1%Z)
  /\ (forall f : Binary64.FixedIntervalTrotterTimeEvolutionCircuitFactory.t,
         Binary64.FixedIntervalTrotterTimeEvolutionCircuitFactory.time_step f
         = time_step ->
         Binary64.FixedIntervalTrotterTimeEvolutionCircuitFactory.__call__
           f time_step
         = inr (Circuit
                  (Binary64.FixedIntervalTrotterTimeEvolutionCircuitFactory.qubit_count f)
                  (gates (Binary64.FixedIntervalTrotterTimeEvolutionCircuitFactory._single_time_step_circuit f))))
  /\ (forall f : Binary64.FixedIntervalTrotterControlledTimeEvolutionCircuitFactory.t,
         Binary64.FixedIntervalTrotterControlledTimeEvolutionCircuitFactory.time_step f
         = time_step ->
         Binary64.FixedIntervalTrotterControlledTimeEvolutionCircuitFactory.__call__
           f time_step
         = inr (Circuit
                  (Binary64.FixedIntervalTrotterControlledTimeEvolutionCircuitFactory.qubit_count f + 1)
                  (gates (Binary64.FixedIntervalTrotterControlledTimeEvolutionCircuitFactory._single_time_step_circuit f)))).
Proof.
  intros Hpos Hfin.
  assert (Hfinite : exists m e, Prim2SF time_step = S754_finite false m e).
  { pose proof (positive_float _ Hpos) as Hp.
    rewrite FloatAxioms.ltb_spec in Hfin.
    change (Prim2SF infinity) with (S754_infinity false) in Hfin.
    unfold SFltb, SFcompare in Hfin.
    destruct (Prim2SF time_step) as [s|[]| |s m e]; simpl in *;
      try done. subst s. eauto. }
  destruct Hfinite as (m & e & Ets).
  assert (Habs : abs time_step = time_step).
  { apply Prim2SF_inj. by rewrite abs_spec, Ets. }
  assert (Hstep : Binary64.get_evolution_trotter_step time_step time_step
                  = inr (1%Z, 1%Z)).
  { unfold Binary64.get_evolution_trotter_step, Binary64.np.abs.
    rewrite Hpos, Habs, (div_diag _ _ _ Ets). cbn [negb]. cbv zeta.
    rewrite int_sign_cases, Ets. reflexivity. }
  split; [exact Hstep|].
  split; intros f Hf.
  - unfold Binary64.FixedIntervalTrotterTimeEvolutionCircuitFactory.__call__.
    rewrite Hf, Hstep. reflexivity.
  - unfold Binary64.FixedIntervalTrotterControlledTimeEvolutionCircuitFactory.__call__.
    rewrite Hf, Hstep. reflexivity.
Qed.

(** X22.  In binary64, a fixed-interval factory whose time step is not a
    positive float (zero, negative or NaN) raises the assertion on the time
    step at every call, whatever the evolution time. *)
Theorem binary64_bad_time_step (time_step evolution_time : float) :
  (0 <? time_step)%float = false ->
  Binary64.get_evolution_trotter_step time_step evolution_time
  = inl (AssertionError msg_time_step)
  /\ (forall f : Binary64.FixedIntervalTrotterTimeEvolutionCircuitFactory.t,
         Binary64.FixedIntervalTrotterTimeEvolutionCircuitFactory.time_step f
         = time_step ->
         Binary64.FixedIntervalTrotterTimeEvolutionCircuitFactory.__call__
           f evolution_time
         = inl (AssertionError msg_time_step))
  /\ (forall f : Binary64.FixedIntervalTrotterControlledTimeEvolutionCircuitFactory.t,
         Binary64.FixedIntervalTrotterControlledTimeEvolutionCircuitFactory.time_step f
         = time_step ->
         Binary64.FixedIntervalTrotterControlledTimeEvolutionCircuitFactory.__call__
           f evolution_time
         = inl (AssertionError msg_time_step)).
Proof.
  intros Hts.
  assert (Hstep : Binary64.get_evolution_trotter_step time_step evolution_time
                  = inl (AssertionError msg_time_step)).
  { unfold Binary64.get_evolution_trotter_step. by rewrite Hts. }
  split; [exact Hstep|].
  split; intros f Hf.
  - unfold Binary64.FixedIntervalTrotterTimeEvolutionCircuitFactory.__call__.
    by rewrite Hf, Hstep.
  - unfold Binary64.FixedIntervalTrotterControlledTimeEvolutionCircuitFactory.__call__.
    by rewrite Hf, Hstep.
Qed.

Section Factories.
Context `{SuzukiRoutine}.



(** X12.  The constructors of the fixed-interval factories do not look at
    the time step: with [time_step <= 0] they return a factory whenever the
    synthesizer returns a template, and every call of that factory raises
    the assertion on the time step. *)
Theorem nonpositive_time_step
  (encoded_problem : QubitHamiltonianInput) (time_step : Q)
  (trotter_order : Z) (w : World) :
  time_step <= 0 ->
  (forall template,
      get_trotter_time_evolution_operator
        (qubit_hamiltonian encoded_problem) (n_state_qubit encoded_problem)
        1 trotter_order = inr template ->
      exists f,
        FixedIntervalTrotterTimeEvolutionCircuitFactory.__init__
          encoded_problem time_step trotter_order w
        = (inr f, count_synthesis w)
        /\ forall evolution_time,
             FixedIntervalTrotterTimeEvolutionCircuitFactory.__call__
               f evolution_time
             = inl (AssertionError msg_time_step))
  /\ (forall template,
         get_trotter_controlled_time_evolution_operator
           (qubit_hamiltonian encoded_problem) (n_state_qubit encoded_problem)
           1 trotter_order = inr template ->
         exists f,
           FixedIntervalTrotterControlledTimeEvolutionCircuitFactory.__init__
             encoded_problem time_step trotter_order w
           = (inr f, count_synthesis w)
           /\ forall evolution_time,
                FixedIntervalTrotterControlledTimeEvolutionCircuitFactory.__call__
                  f evolution_time
                = inl (AssertionError msg_time_step)).
Proof.
  intros Hts. split; intros template Htemplate.
  - unfold FixedIntervalTrotterTimeEvolutionCircuitFactory.__init__,
      mbind, Py_bind, synthesize. rewrite Htemplate.
    eexists. split; [reflexivity|]. intros evolution_time.
    by apply interval_call_bad_time_step.
  - unfold FixedIntervalTrotterControlledTimeEvolutionCircuitFactory.__init__,
      mbind, Py_bind, synthesize. rewrite Htemplate.
    eexists. split; [reflexivity|]. intros evolution_time.
    by apply interval_call_bad_time_step.
Qed.


(** X14.  A constructed [TrotterTimeEvolutionCircuitFactory] forwards to
    the fixed factory of its policy, built from the same arguments with the
    same effect on the world: its calls are the calls of that factory, and
    a factory built from [n_trotter] returns a circuit at every time. *)
Theorem facade_forwards
  (encoded_problem : QubitHamiltonianInput)
  (time_step : option Q) (n_trotter : option Z) (trotter_order : Z)
  (w w' : World) f :
  TrotterTimeEvolutionCircuitFactory.__init__
    encoded_problem time_step n_trotter trotter_order w = (inr f, w') ->
  (exists ts g,
      time_step = Some ts /\ n_trotter = None
      /\ FixedIntervalTrotterTimeEvolutionCircuitFactory.__init__
           encoded_problem ts trotter_order w = (inr g, w')
      /\ forall evolution_time,
           TrotterTimeEvolutionCircuitFactory.__call__ f evolution_time
           = FixedIntervalTrotterTimeEvolutionCircuitFactory.__call__
               g evolution_time)
  \/ (exists n g,
         time_step = None /\ n_trotter = Some n
         /\ FixedStepTrotterTimeEvolutionCircuitFactory.__init__
              encoded_problem n trotter_order w = (inr g, w')
         /\ forall evolution_time,
              TrotterTimeEvolutionCircuitFactory.__call__ f evolution_time
              = inr (FixedStepTrotterTimeEvolutionCircuitFactory.__call__
                       g evolution_time)).
Proof.
  intros Hinit.
  destruct time_step as [ts|], n_trotter as [n|]; try discriminate.
  - left. exists ts.
    unfold TrotterTimeEvolutionCircuitFactory.__init__, mbind, Py_bind,
      assert in Hinit. simpl in Hinit.
    destruct (FixedIntervalTrotterTimeEvolutionCircuitFactory.__init__
                encoded_problem ts trotter_order w) as [[e|g] w1] eqn:Hg;
      [discriminate|].
    injection Hinit as <- <-. exists g. by repeat split.
  - right. exists n.
    unfold TrotterTimeEvolutionCircuitFactory.__init__, mbind, Py_bind,
      assert in Hinit. simpl in Hinit.
    destruct (FixedStepTrotterTimeEvolutionCircuitFactory.__init__
                encoded_problem n trotter_order w) as [[e|g] w1] eqn:Hg;
      [discriminate|].
    injection Hinit as <- <-. exists g. by repeat split.
Qed.

(** X15.  A constructed [TrotterControlledTimeEvolutionCircuitFactory]
    forwards to the controlled fixed factory of its policy, built from the
    same arguments with the same effect on the world: its calls are the
    calls of that factory. *)
Theorem controlled_facade_forwards
  (encoded_problem : QubitHamiltonianInput)
  (time_step : option Q) (n_trotter : option Z) (trotter_order : Z)
  (w w' : World) f :
  TrotterControlledTimeEvolutionCircuitFactory.__init__
    encoded_problem time_step n_trotter trotter_order w = (inr f, w') ->
  (exists ts g,
      time_step = Some ts /\ n_trotter = None
      /\ FixedIntervalTrotterControlledTimeEvolutionCircuitFactory.__init__
           encoded_problem ts trotter_order w = (inr g, w')
      /\ forall evolution_time,
           TrotterControlledTimeEvolutionCircuitFactory.__call__
             f evolution_time
           = FixedIntervalTrotterControlledTimeEvolutionCircuitFactory.__call__
               g evolution_time)
  \/ (exists n g,
         time_step = None /\ n_trotter = Some n
         /\ FixedStepTrotterControlledTimeEvolutionCircuitFactory.__init__
              encoded_problem n trotter_order w = (inr g, w')
         /\ forall evolution_time,
              TrotterControlledTimeEvolutionCircuitFactory.__call__
                f evolution_time
              = inr (FixedStepTrotterControlledTimeEvolutionCircuitFactory.__call__
                       g evolution_time)).
Proof.
  intros Hinit.
  destruct time_step as [ts|], n_trotter as [n|]; try discriminate.
  - left. exists ts.
    unfold TrotterControlledTimeEvolutionCircuitFactory.__init__, mbind,
      Py_bind, assert in Hinit. simpl in Hinit.
    destruct (FixedIntervalTrotterControlledTimeEvolutionCircuitFactory.__init__
                encoded_problem ts trotter_order w) as [[e|g] w1] eqn:Hg;
      [discriminate|].
    injection Hinit as <- <-. exists g. by repeat split.
  - right. exists n.
    unfold TrotterControlledTimeEvolutionCircuitFactory.__init__, mbind,
      Py_bind, assert in Hinit. simpl in Hinit.
    destruct (FixedStepTrotterControlledTimeEvolutionCircuitFactory.__init__
                encoded_problem n trotter_order w) as [[e|g] w1] eqn:Hg;
      [discriminate|].
    injection Hinit as <- <-. exists g. by repeat split.
Qed.

(** X16.  An odd order other than 1 is rejected when the factory is
    constructed, not when it is called: with exactly one policy argument
    both top-level constructors raise the assertion on the order, after one
    call of a synthesizer. *)
Theorem order_checked_at_construction
  (encoded_problem : QubitHamiltonianInput)
  (time_step : option Q) (n_trotter : option Z) (trotter_order : Z)
  (w : World) :
  exactly_one_supplied time_step n_trotter ->
  trotter_order <> 1%Z -> (trotter_order mod 2 <> 0)%Z ->
  TrotterTimeEvolutionCircuitFactory.__init__
    encoded_problem time_step n_trotter trotter_order w
  = (inl (AssertionError msg_trotter_order), count_synthesis w)
  /\ TrotterControlledTimeEvolutionCircuitFactory.__init__
       encoded_problem time_step n_trotter trotter_order w
     = (inl (AssertionError msg_trotter_order), count_synthesis w).
Proof.
  intros Hone Hne Hodd.
  pose proof (fun n_trotter =>
                odd_order_rejected (qubit_hamiltonian encoded_problem)
                  (n_state_qubit encoded_problem) n_trotter trotter_order
                  Hne Hodd) as Hrej.
  destruct Hone as [[[ts ->] ->] | [-> [n ->]]].
  - destruct (Hrej 1%Z) as [Hplain Hcontrolled].
    unfold TrotterTimeEvolutionCircuitFactory.__init__,
      TrotterControlledTimeEvolutionCircuitFactory.__init__,
      FixedIntervalTrotterTimeEvolutionCircuitFactory.__init__,
      FixedIntervalTrotterControlledTimeEvolutionCircuitFactory.__init__,
      mbind, Py_bind, assert, synthesize. simpl.
    by rewrite Hplain, Hcontrolled.
  - destruct (Hrej n) as [Hplain Hcontrolled].
    unfold TrotterTimeEvolutionCircuitFactory.__init__,
      TrotterControlledTimeEvolutionCircuitFactory.__init__,
      FixedStepTrotterTimeEvolutionCircuitFactory.__init__,
      FixedStepTrotterControlledTimeEvolutionCircuitFactory.__init__,
      mbind, Py_bind, assert, synthesize. simpl.
    by rewrite Hplain, Hcontrolled.
Qed.

End Factories.

(** ** The Hadamard-test factory *)

(** X19.  The Hadamard-test factory passes on what the controlled factory
    raises, and otherwise wraps its circuit: same qubit count, H on qubit 0
    in front, and at the end H on qubit 0, after S-dagger on qubit 0 when
    [test_real] is false. *)
Theorem hadamard_factory_call {Args}
  (self : HadamardTestCircuitFactory.t Args) (args : Args) :
  match HadamardTestCircuitFactory.controlled_circuit_factory self args with
  | inl e => HadamardTestCircuitFactory.__call__ self args = inl e
  | inr circuit =>
      exists wrapped,
        HadamardTestCircuitFactory.__call__ self args = inr wrapped
        /\ qubit_count wrapped = qubit_count circuit
        /\ gates wrapped
           = Gate.H 0 :: gates circuit
               ++ (if HadamardTestCircuitFactory.test_real self
                   then [Gate.H 0] else [Gate.Sdag 0; Gate.H 0])
  end.
Proof.
  unfold HadamardTestCircuitFactory.__call__.
  destruct (HadamardTestCircuitFactory.controlled_circuit_factory self args)
    as [e|circuit]; [reflexivity|].
  eexists. split; [reflexivity|]. split.
  - by destruct (HadamardTestCircuitFactory.test_real self).
  - rewrite construct_hadamard_circuit_gates. simpl.
    destruct (HadamardTestCircuitFactory.test_real self); simpl;
      by rewrite app_nil_r.
Qed.

(** * Witnesses of the further properties *)

Section FurtherExamples.
#[local] Existing Instance symmetric_splitting.
#[local] Existing Instance whole_hamiltonian.

Lemma template_gate_counts_witness :
  exists terms template,
    _get_trotter_pauli_coefficient_pairs
      (get_shifted_hamiltonian sample_hamiltonian 1) 1 = inr terms
    /\ get_trotter_controlled_time_evolution_operator sample_hamiltonian 2 2 1
       = inr template
    /\ length (param_gates template)
       = (Z.to_nat 2 * (identity_terms terms + 2 * rotation_terms terms))%nat.
Proof.
  eexists _, _. split; [reflexivity|]. split; [reflexivity|].
  apply (proj2 (template_gate_counts sample_hamiltonian 2 2 1)); reflexivity.
Defined.

Lemma no_step_no_gate_witness :
  (0 <= 0)%Z /\
  exists template,
    get_trotter_time_evolution_operator sample_hamiltonian 2 0 1 = inr template
    /\ template = ParametricCircuit 2 [].
Proof.
  split; [lia|]. eexists. split; [reflexivity|].
  apply (proj1 (no_step_no_gate sample_hamiltonian 2 0 1 ltac:(lia))).
  reflexivity.
Defined.

Lemma control_qubit_diagonal_witness :
  exists template,
    get_trotter_controlled_time_evolution_operator sample_hamiltonian 2 2 1
    = inr template
    /\ Forall control_diagonal (param_gates template).
Proof.
  eexists. split; [reflexivity|].
  apply (control_qubit_diagonal sample_hamiltonian 2 2 1 _ eq_refl).
  by left.
Defined.

Lemma plain_template_real_parts_witness :
  same_real_parts sample_hamiltonian sample_hamiltonian_imag /\
  get_trotter_time_evolution_operator sample_hamiltonian 2 2 1
  = get_trotter_time_evolution_operator sample_hamiltonian_imag 2 2 1.
Proof.
  assert (Hsame : same_real_parts sample_hamiltonian sample_hamiltonian_imag).
  { unfold same_real_parts, sample_hamiltonian, sample_hamiltonian_imag.
    repeat (constructor; [split; reflexivity|]). constructor. }
  split; [exact Hsame|].
  exact (plain_template_real_parts _ _ 2%nat 2%Z Hsame).
Defined.

Lemma shifts_compose_witness :
  NoDup sample_hamiltonian.*1 /\
  Forall (fun term => complex_is_zero term.2 = false) sample_hamiltonian /\
  get_shifted_hamiltonian (get_shifted_hamiltonian sample_hamiltonian 1) 2
  = get_shifted_hamiltonian sample_hamiltonian 3.
Proof.
  assert (Hdistinct : NoDup sample_hamiltonian.*1).
  { refine (bool_decide_unpack _ _). vm_compute. exact I. }
  assert (Hnonzero : Forall (fun term => complex_is_zero term.2 = false)
                       sample_hamiltonian).
  { unfold sample_hamiltonian.
    repeat (apply Forall_cons; split; [reflexivity|]). by apply Forall_nil. }
  split; [exact Hdistinct|]. split; [exact Hnonzero|].
  exact (proj2 (shifts_compose sample_hamiltonian 1 2 Hdistinct Hnonzero)).
Defined.

Lemma nonpositive_time_step_witness :
  0 <= 0 /\
  exists f,
    FixedIntervalTrotterTimeEvolutionCircuitFactory.__init__
      sample_problem 0 1 initial_world
    = (inr f, count_synthesis initial_world)
    /\ forall evolution_time,
         FixedIntervalTrotterTimeEvolutionCircuitFactory.__call__
           f evolution_time
         = inl (AssertionError msg_time_step).
Proof.
  split; [discriminate|].
  eapply (proj1 (nonpositive_time_step sample_problem 0 1 initial_world
                   ltac:(discriminate))).
  reflexivity.
Defined.


Lemma facade_forwards_witness :
  exists f w' g,
    TrotterTimeEvolutionCircuitFactory.__init__
      sample_problem None (Some 2%Z) 1 initial_world = (inr f, w')
    /\ FixedStepTrotterTimeEvolutionCircuitFactory.__init__
         sample_problem 2 1 initial_world = (inr g, w')
    /\ forall evolution_time,
         TrotterTimeEvolutionCircuitFactory.__call__ f evolution_time
         = inr (FixedStepTrotterTimeEvolutionCircuitFactory.__call__
                  g evolution_time).
Proof.
  destruct (facade_forwards sample_problem None (Some 2%Z) 1
              initial_world _ _ eq_refl)
    as [(ts & g & Hts & _) | (n & g & _ & Hn & Hg & Hcall)];
    [discriminate|].
  injection Hn as <-. eexists _, _, g. split; [reflexivity|].
  split; [exact Hg | exact Hcall].
Defined.

Lemma controlled_facade_forwards_witness :
  exists f w' g,
    TrotterControlledTimeEvolutionCircuitFactory.__init__
      sample_problem (Some (1 # 4)) None 1 initial_world = (inr f, w')
    /\ FixedIntervalTrotterControlledTimeEvolutionCircuitFactory.__init__
         sample_problem (1 # 4) 1 initial_world = (inr g, w')
    /\ forall evolution_time,
         TrotterControlledTimeEvolutionCircuitFactory.__call__
           f evolution_time
         = FixedIntervalTrotterControlledTimeEvolutionCircuitFactory.__call__
             g evolution_time.
Proof.
  destruct (controlled_facade_forwards sample_problem (Some (1 # 4)) None 1
              initial_world _ _ eq_refl)
    as [(ts & g & Hts & _ & Hg & Hcall) | (n & g & Hts & _)];
    [|discriminate].
  injection Hts as <-. eexists _, _, g. split; [reflexivity|].
  split; [exact Hg | exact Hcall].
Defined.

Lemma order_checked_at_construction_witness :
  exactly_one_supplied (@None Q) (Some 2%Z) /\ 3%Z <> 1%Z /\
  (3 mod 2 <> 0)%Z /\
  TrotterTimeEvolutionCircuitFactory.__init__
    sample_problem None (Some 2%Z) 3 initial_world
  = (inl (AssertionError msg_trotter_order), count_synthesis initial_world).
Proof.
  assert (Hone : exactly_one_supplied (@None Q) (Some 2%Z)).
  { right. split; [reflexivity | by exists 2%Z]. }
  split; [exact Hone|]. split; [discriminate|]. split; [discriminate|].
  apply (proj1 (order_checked_at_construction sample_problem None (Some 2%Z)
                  3 initial_world Hone ltac:(discriminate)
                  ltac:(discriminate))).
Defined.

Lemma binary64_single_step_witness :
  (0 <? 0.25)%float = true /\ (0.25 <? infinity)%float = true /\
  Binary64.get_evolution_trotter_step 0.25 0.25 = inr (1%Z, 1%Z).
Proof.
  split; [reflexivity|]. split; [reflexivity|].
  exact (proj1 (binary64_single_step 0.25 eq_refl eq_refl)).
Defined.

Lemma binary64_bad_time_step_witness :
  (0 <? nan)%float = false /\
  Binary64.get_evolution_trotter_step nan 1
  = inl (AssertionError msg_time_step).
Proof.
  split; [reflexivity|].
  exact (proj1 (binary64_bad_time_step nan 1 eq_refl)).
Defined.

End FurtherExamples.
